(** * dair_pll: trajectory dataset management, verified against its specification

    A shallow embedding of [dair_pll/dataset_management.py] and of the parts of
    [dair_pll/file_utils.py] it relies on.

    - Python integers are [Z]; lists are [list]; a tensor is the list of its
      rows (the state vectors of a trajectory), so that [traj.shape[0]] is
      [length traj] and [traj[a:b, :]] is a Python slice of that list.
    - A raised exception is an [outcome] of the form [Raise e]; code that
      mutates an object returns the object next to the outcome, so that what
      has been mutated before an exception stays visible.
    - A directory is a finite map from file names to file contents.
    - [torch.randperm], the simulator and the external writer of the data
      directory are oracles passed as arguments.
    - The float product [n * fraction] is the exact rational product; both
      agree whenever the product is representable (dyadic fractions, counts
      below 2^53). *)

From stdpp Require Import gmap strings pretty list list_numbers fin_maps sets sorting.
From Stdlib Require Import Ascii QArith Qround Lqa.

Local Open Scope Z_scope.

(** ** Python primitives *)

Inductive exn : Set :=
  | AssertionError
  | RuntimeError
  | FileNotFoundError
  | IndexError
  | AttributeError.

Inductive outcome (A : Type) : Type :=
  | Ok (a : A)
  | Raise (e : exn).
Arguments Ok {A} a.
Arguments Raise {A} e.

Definition obind {A B} (f : A → outcome B) (x : outcome A) : outcome B :=
  match x with
  | Ok a => f a
  | Raise e => Raise e
  end.

Notation "x ←! y ; z" := (obind (λ x, z) y)
  (at level 20, y at level 100, z at level 200, only parsing).

(** [range(first, last)] *)
Definition range (first last : Z) : list Z := seqZ first (last - first).

(** Normalisation of one bound of a slice of a sequence of length [len]:
    a negative bound counts from the end, and bounds are clamped. *)
Definition py_bound (len i : Z) : Z :=
  if bool_decide (i < 0) then Z.max 0 (len + i) else Z.min i len.

(** [l[lo:hi]], where [None] is an omitted bound. *)
Definition py_slice {A} (l : list A) (lo hi : option Z) : list A :=
  let len := Z.of_nat (length l) in
  let a := from_option (py_bound len) 0 lo in
  let b := from_option (py_bound len) len hi in
  take (Z.to_nat (b - a)) (drop (Z.to_nat a) l).

(** [l[idx]] on a list: negative indices count from the end, and an index
    out of range raises [IndexError]. *)
Definition py_getitem {A} (l : list A) (idx : Z) : outcome A :=
  let len := Z.of_nat (length l) in
  let i := if bool_decide (idx < 0) then idx + len else idx in
  if bool_decide (0 ≤ i < len) then
    match l !! Z.to_nat i with
    | Some x => Ok x
    | None => Raise IndexError
    end
  else Raise IndexError.

(** [round(x)] of Python 3 on a number: to the nearest integer, ties to the
    even one. *)
Definition py_round (x : Q) : Z :=
  let f := Qfloor x in
  match Qcompare (x - inject_Z f) (1 # 2) with
  | Lt => f
  | Gt => f + 1
  | Eq => if Z.even f then f else f + 1
  end.

(** ** dataset_management.TrajectorySliceDataset *)

Section Slicer.
Context {State : Type}.
Local Abbreviation Tensor := (list State).

Record TrajectorySliceDataset : Type := mkSlicer {
  t_skip : Z;
  t_history : Z;
  t_prediction : Z;
  in_slices : list Tensor;
  out_slices : list Tensor
}.

(** The two tensors cut at anchor [i]: [traj[(i + 1 - in_window):(i + 1), :]]
    and [traj[(i + 1):(i + 1 + out_window), :]]. *)
Definition in_slice (traj : Tensor) (in_window i : Z) : Tensor :=
  py_slice traj (Some (i + 1 - in_window)) (Some (i + 1)).
Definition out_slice (traj : Tensor) (out_window i : Z) : Tensor :=
  py_slice traj (Some (i + 1)) (Some (i + 1 + out_window)).

(** One turn of the loop of [add_sliced_trajectory]. *)
Definition append_slice (traj : Tensor) (self : TrajectorySliceDataset)
    (i : Z) : TrajectorySliceDataset :=
  let in_window := t_history self in
  let out_window := t_prediction self in
  mkSlicer (t_skip self) (t_history self) (t_prediction self)
    (in_slices self ++ [in_slice traj in_window i])
    (out_slices self ++ [out_slice traj out_window i]).

Definition add_sliced_trajectory (traj : Tensor)
    (self : TrajectorySliceDataset) : outcome unit * TrajectorySliceDataset :=
  let traj_len := Z.of_nat (length traj) in
  let first := t_skip self in
  let last := traj_len - t_prediction self in
  if bool_decide (first ≤ last) then
    (Ok (), foldl (append_slice traj) self (range first last))
  else (Raise AssertionError, self).

(** [for trajectory in trajectories: self.add_sliced_trajectory(trajectory)];
    an exception leaves the loop with what has been appended so far. *)
Fixpoint add_each (trajectories : list Tensor) (self : TrajectorySliceDataset)
    : outcome unit * TrajectorySliceDataset :=
  match trajectories with
  | [] => (Ok (), self)
  | trajectory :: rest =>
      match add_sliced_trajectory trajectory self with
      | (Ok _, self') => add_each rest self'
      | (Raise e, self') => (Raise e, self')
      end
  end.

(** [TrajectorySliceDataset.__init__]; an exception leaves the constructor
    without an object. *)
Definition TrajectorySliceDataset_init (trajectories : list Tensor)
    (t_skip t_history t_prediction : Z) : outcome TrajectorySliceDataset :=
  if bool_decide (t_history ≤ t_skip + 1) then
    match add_each trajectories (mkSlicer t_skip t_history t_prediction [] []) with
    | (Ok _, self) => Ok self
    | (Raise e, _) => Raise e
    end
  else Raise AssertionError.

(** [__len__] *)
Definition len (self : TrajectorySliceDataset) : Z :=
  Z.of_nat (length (in_slices self)).

(** [__getitem__] *)
Definition getitem (self : TrajectorySliceDataset) (idx : Z)
    : outcome (Tensor * Tensor) :=
  x ←! py_getitem (in_slices self) idx;
  y ←! py_getitem (out_slices self) idx;
  Ok (x, y).

(** The rows [start, start + n) of a trajectory. *)
Definition window (traj : Tensor) (start n : Z) : Tensor :=
  take (Z.to_nat n) (drop (Z.to_nat start) traj).

End Slicer.
Arguments TrajectorySliceDataset : clear implicits.

(** ** file_utils *)

Module file_utils.

(** *** Shell-style patterns, as [glob.glob] reads them

    A pattern is a sequence of tokens: [*] (any run of characters), [?] (one
    character), a bracketed class of characters and ranges, possibly negated
    by a leading [!], or a literal character. *)

Inductive glob_token : Set :=
  | GStar
  | GAny
  | GClass (negate : bool) (items : list (ascii * ascii))
  | GLit (c : ascii).

(** The members of a class, up to the closing bracket. *)
Fixpoint class_items (s : string) (acc : list (ascii * ascii))
    : option (list (ascii * ascii) * string) :=
  match s with
  | EmptyString => None
  | String a tl =>
      if Ascii.eqb a "]" then Some (reverse acc, tl)
      else
        match tl with
        | String dash (String b rest) =>
            if Ascii.eqb dash "-" && negb (Ascii.eqb b "]")
            then class_items rest ((a, b) :: acc)
            else class_items tl ((a, a) :: acc)
        | _ => class_items tl ((a, a) :: acc)
        end
  end.

(** What follows an opening bracket: an optional [!], an optional literal
    closing bracket, then the members. [None] when the bracket is never
    closed; the opening bracket is then a literal character. *)
Definition parse_class (s : string)
    : option (bool * list (ascii * ascii) * string) :=
  let (negate, s1) :=
    match s with
    | String c tl => if Ascii.eqb c "!" then (true, tl) else (false, s)
    | EmptyString => (false, s)
    end in
  let (acc, s2) :=
    match s1 with
    | String c tl => if Ascii.eqb c "]" then ([(c, c)], tl) else ([], s1)
    | EmptyString => ([], s1)
    end in
  match class_items s2 acc with
  | Some (items, rest) => Some (negate, items, rest)
  | None => None
  end.

Fixpoint glob_tokens (fuel : nat) (pat : string) : list glob_token :=
  match fuel, pat with
  | O, _ | _, EmptyString => []
  | S fuel, String c rest =>
      if Ascii.eqb c "*" then GStar :: glob_tokens fuel rest
      else if Ascii.eqb c "?" then GAny :: glob_tokens fuel rest
      else if Ascii.eqb c "[" then
        match parse_class rest with
        | Some (negate, items, rest') =>
            GClass negate items :: glob_tokens fuel rest'
        | None => GLit c :: glob_tokens fuel rest
        end
      else GLit c :: glob_tokens fuel rest
  end.

Definition in_class (items : list (ascii * ascii)) (c : ascii) : bool :=
  existsb (λ item, Ascii.leb item.1 c && Ascii.leb c item.2) items.

Fixpoint glob_match (toks : list glob_token) (name : string) : bool :=
  match toks with
  | [] => if name is EmptyString then true else false
  | GStar :: toks' =>
      (fix star (name : string) : bool :=
         glob_match toks' name
         || match name with
            | EmptyString => false
            | String _ name' => star name'
            end) name
  | GAny :: toks' =>
      match name with
      | EmptyString => false
      | String _ name' => glob_match toks' name'
      end
  | GClass negate items :: toks' =>
      match name with
      | EmptyString => false
      | String c name' =>
          xorb negate (in_class items c) && glob_match toks' name'
      end
  | GLit c :: toks' =>
      match name with
      | EmptyString => false
      | String c' name' => Ascii.eqb c c' && glob_match toks' name'
      end
  end.

(** Does the file name match the pattern? *)
Definition fnmatch (name pat : string) : bool :=
  glob_match (glob_tokens (String.length pat) pat) name.

(** *** The file system

    A directory is the finite map of its files, by name; a file system maps
    the paths of the directories that exist to their contents. Paths are
    absolute and normalised, and directories are not nested in the map: a
    directory's entry holds its regular files. *)

Definition TRAJ_EXTENSION : string := ".pt".
Definition HYPERPARAMETERS_EXTENSION : string := ".json".
Definition STATS_EXTENSION : string := ".pkl".

Definition path_join (a b : string) : string := a +:+ "/" +:+ b.

(** The last component of a path. *)
Fixpoint basename_go (p acc : string) : string :=
  match p with
  | EmptyString => acc
  | String c rest =>
      if Ascii.eqb c "/" then basename_go rest EmptyString
      else basename_go rest (acc +:+ String c EmptyString)
  end.
Definition basename (p : string) : string := basename_go p EmptyString.

(** The docstring of [get_numeric_file_count], in its own words: a file is
    counted when it has the extension and an integer basename, that is, when
    its name is a non-empty run of decimal digits followed by the
    extension. *)
Definition is_digit (c : ascii) : bool := Ascii.leb "0" c && Ascii.leb c "9".

Fixpoint integer_basename_from (extension name : string) (seen : bool) : bool :=
  (seen && String.eqb name extension)
  || match name with
     | EmptyString => false
     | String c rest => is_digit c && integer_basename_from extension rest true
     end.

Definition has_integer_basename (extension name : string) : bool :=
  integer_basename_from extension name false.

Section Files.
Context {X : Type}.
Local Abbreviation Dir := (gmap string X).
Local Abbreviation FS := (gmap string (gmap string X)).

(** The files of a directory; a directory that does not exist has none. *)
Definition listdir (directory : string) (fs : FS) : Dir :=
  default ∅ (fs !! directory).

(** [assure_created], without the creation of the parents. *)
Definition assure_created (directory : string) (fs : FS) : string * FS :=
  (directory,
   match fs !! directory with
   | Some _ => fs
   | None => <[directory := ∅]> fs
   end).

(** [glob.glob(path.join(directory, './[0-9]*' + extension))] on the
    contents of the directory. *)
Definition glob_numeric (extension : string) (dir : Dir) : Dir :=
  filter (λ file, fnmatch file.1 ("[0-9]*" +:+ extension)) dir.

(** [get_numeric_file_count] on the contents of a directory. *)
Definition numeric_file_count (dir : Dir) (extension : string) : Z :=
  Z.of_nat (size (glob_numeric extension dir)).

(** The count that the docstring of [get_numeric_file_count] describes. *)
Definition documented_numeric_file_count (dir : Dir) (extension : string) : Z :=
  Z.of_nat (size (filter (λ file, has_integer_basename extension file.1) dir)).

Definition get_numeric_file_count (directory extension : string) (fs : FS) : Z :=
  numeric_file_count (listdir directory fs) extension.

Definition storage_dir (storage_name : string) (fs : FS) : string * FS :=
  assure_created storage_name fs.

Definition data_dir (storage_name : string) (fs : FS) : string * FS :=
  let (storage, fs) := storage_dir storage_name fs in
  assure_created (path_join storage "data") fs.

Definition get_trajectory_count (storage_name : string) (fs : FS) : Z * FS :=
  let (directory, fs) := data_dir storage_name fs in
  (get_numeric_file_count directory TRAJ_EXTENSION fs, fs).

(** The name of a trajectory file inside the data directory:
    [f'{num_trajectory}{TRAJ_EXTENSION}']. *)
Definition trajectory_basename (num_trajectory : Z) : string :=
  pretty num_trajectory +:+ TRAJ_EXTENSION.

Definition trajectory_file (storage_name : string) (num_trajectory : Z)
    (fs : FS) : string * FS :=
  let (directory, fs) := data_dir storage_name fs in
  (path_join directory (trajectory_basename num_trajectory), fs).

(** [os.system('rm -r directory')] *)
Definition rm_r (directory : string) (fs : FS) : FS := delete directory fs.

(** [os.system('cp -r source target')]: a copy named [target] when no such
    directory exists, a copy inside [target] otherwise; nothing when the
    source does not exist. *)
Definition cp_r (source target : string) (fs : FS) : FS :=
  match fs !! source with
  | None => fs
  | Some files =>
      match fs !! target with
      | None => <[target := files]> fs
      | Some _ => <[path_join target (basename source) := files]> fs
      end
  end.

Definition import_data_to_storage (storage_name import_data_dir : string)
    (fs : FS) : FS :=
  let (storage_data_dir, fs) := data_dir storage_name fs in
  let storage_traj_count :=
    get_numeric_file_count storage_data_dir TRAJ_EXTENSION fs in
  let data_traj_count :=
    get_numeric_file_count import_data_dir TRAJ_EXTENSION fs in
  if bool_decide (storage_traj_count ≠ data_traj_count) then
    cp_r import_data_dir storage_data_dir (rm_r storage_data_dir fs)
  else fs.

(** *** The other directories and files of a storage *)

Definition urdf_dir (storage_name : string) (fs : FS) : string * FS :=
  let (storage, fs) := storage_dir storage_name fs in
  assure_created (path_join storage "urdf") fs.

Definition tensorboard_dir (storage_name : string) (fs : FS) : string * FS :=
  let (storage, fs) := storage_dir storage_name fs in
  assure_created (path_join storage "tensorboard") fs.

Definition temp_dir (storage_name : string) (fs : FS) : string * FS :=
  let (storage, fs) := storage_dir storage_name fs in
  assure_created (path_join storage "temp") fs.

Definition assure_storage_tree_created (storage_name : string) (fs : FS) : FS :=
  let storage_directories := [urdf_dir; data_dir; tensorboard_dir; temp_dir] in
  foldl (λ fs (directory : string → FS → string * FS),
           let (created, fs) := directory storage_name fs in
           (assure_created created fs).2)
    fs storage_directories.

Definition append_by_extension (directory extension : string) (fs : FS)
    : string * FS :=
  let (created, fs) := assure_created directory fs in
  let num_files := get_numeric_file_count created extension fs in
  (path_join directory (pretty num_files +:+ extension), fs).

Definition sweep_dir (storage_name : string) (n_train : Z) (fs : FS)
    : string * FS :=
  let (storage, fs) := storage_dir storage_name fs in
  assure_created (path_join storage (pretty n_train)) fs.

Definition get_sweep_summary_count (storage_name : string) (n_train : Z)
    (fs : FS) : Z * FS :=
  let (directory, fs) := sweep_dir storage_name n_train fs in
  (get_numeric_file_count directory STATS_EXTENSION fs, fs).

Definition sweep_summary_file (storage_name : string) (n_train : Z)
    (n_run : option Z) (fs : FS) : string * FS :=
  let (swept, fs) := sweep_dir storage_name n_train fs in
  let (directory, fs) := assure_created swept fs in
  match n_run with
  | None => append_by_extension directory STATS_EXTENSION fs
  | Some n_run => (path_join directory (pretty n_run +:+ STATS_EXTENSION), fs)
  end.

(** A file with contents [x] written under the name [name] in a directory
    that exists: what [torch.save] and the like do at
    [path.join(directory, name)]. *)
Definition write_file (directory name : string) (x : X) (fs : FS) : FS :=
  <[directory := <[name := x]> (listdir directory fs)]> fs.

(** The directory that holds the contents of a list under the names
    [0 + extension], [1 + extension], ..., in that order, and nothing else. *)
Definition numbered (extension : string) (l : list X) : Dir :=
  list_to_map (imap (λ i x, (pretty (Z.of_nat i) +:+ extension, x)) l).

End Files.

(** An extension without pattern characters. *)
Fixpoint glob_plain (s : string) : bool :=
  match s with
  | EmptyString => true
  | String c rest =>
      negb (Ascii.eqb c "*") && negb (Ascii.eqb c "?") && negb (Ascii.eqb c "[")
      && glob_plain rest
  end.

End file_utils.

(** ** dataset_management: configuration *)

Module DataGenerationConfig.
(** The sampler, the noise and the nominal state are used by the simulator
    only, which is an oracle here. *)
Record t : Set := mk {
  n_pop : Z;
  traj_len : Z
}.
End DataGenerationConfig.

Module DataConfig.
Record t : Set := mk {
  storage : string;
  train_fraction : Q;
  valid_fraction : Q;
  test_fraction : Q;
  t_skip : Z;
  t_history : Z;
  t_prediction : Z;
  generation_config : option DataGenerationConfig.t;
  import_directory : option string;
  dynamic_updates_from : option Z
}.
End DataConfig.

(** The data source chosen by [SystemDataManager.__init__]: it asserts that
    exactly one of the three fields [is not None]. *)
Inductive acquisition : Set := Generate | Import | Dynamic.

Definition acquisition_mode (config : DataConfig.t) : outcome acquisition :=
  let do_generate := bool_decide (is_Some (DataConfig.generation_config config)) in
  let do_import := bool_decide (is_Some (DataConfig.import_directory config)) in
  let do_dynamics := bool_decide (is_Some (DataConfig.dynamic_updates_from config)) in
  if bool_decide (Z.b2z do_generate + Z.b2z do_import + Z.b2z do_dynamics = 1) then
    Ok (if do_generate then Generate else if do_import then Import else Dynamic)
  else Raise AssertionError.

(** The truth value of an [Optional[int]] in a condition: [None] and [0] are
    false. *)
Definition truthy (x : option Z) : bool :=
  match x with
  | Some z => bool_decide (z ≠ 0)
  | None => false
  end.

(** [round(n * fraction)] *)
Definition round_fraction (n : Z) (fraction : Q) : Z :=
  py_round (inject_Z n * fraction).

(** ** dataset_management.SystemDataManager

    The manager reads and writes one directory, [data_dir(config.storage)];
    its methods are stated over the contents [dir] of that directory, where
    [file_utils.get_trajectory_count(config.storage)] is
    [numeric_file_count dir TRAJ_EXTENSION] and the file
    [trajectory_file(config.storage, i)] is the entry
    [trajectory_basename i]. *)

Section Manager.
Context {State : Type}.
Local Abbreviation Tensor := (list State).
Local Abbreviation Dir := (gmap string (list State)).

Record TrajectorySet : Type := mkTrajectorySet {
  slices : TrajectorySliceDataset State;
  trajectories : list Tensor
}.

Record SystemDataManager : Type := mkManager {
  config : DataConfig.t;
  n_on_disk : Z;
  train_set : option TrajectorySet;
  valid_set : option TrajectorySet;
  test_set : option TrajectorySet
}.

Definition get_trajectory_count (dir : Dir) : Z :=
  file_utils.numeric_file_count dir file_utils.TRAJ_EXTENSION.

(** [torch.load(file_utils.trajectory_file(storage, i))] *)
Definition torch_load (dir : Dir) (i : Z) : outcome Tensor :=
  match dir !! file_utils.trajectory_basename i with
  | Some trajectory => Ok trajectory
  | None => Raise FileNotFoundError
  end.

(** [torch.save(trajectory, file_utils.trajectory_file(storage, i))] *)
Definition torch_save (trajectory : Tensor) (i : Z) (dir : Dir) : Dir :=
  <[file_utils.trajectory_basename i := trajectory]> dir.

Fixpoint load_all (dir : Dir) (selection : list Z) : outcome (list Tensor) :=
  match selection with
  | [] => Ok []
  | i :: rest =>
      trajectory ←! torch_load dir i;
      data ←! load_all dir rest;
      Ok (trajectory :: data)
  end.

(** [data] holds the files of the indices [selection], in that order. *)
Definition loaded_from (dir : Dir) (selection : list Z) (data : list Tensor) : Prop :=
  Forall2 (λ i trajectory, dir !! file_utils.trajectory_basename i = Some trajectory)
    selection data.

(** The directory holds a trajectory file for each index of [[lo, hi)]. *)
Definition holds_range (dir : Dir) (lo hi : Z) : Prop :=
  ∀ i, lo ≤ i < hi → is_Some (dir !! file_utils.trajectory_basename i).

(** The directory that holds the trajectories of a list under the indices
    [0, 1, ...], in that order, and nothing else. *)
Definition store_of (l : list Tensor) : Dir :=
  list_to_map (imap (λ i t, (file_utils.trajectory_basename (Z.of_nat i), t)) l).

(** Every trajectory of the list has an anchor or is exactly as long as the
    slicer of the configuration accepts: its length is at least
    [t_skip + t_prediction]. *)
Definition sliceable (config : DataConfig.t) (trajectory : Tensor) : Prop :=
  DataConfig.t_skip config + DataConfig.t_prediction config
  ≤ Z.of_nat (length trajectory).

(** The slicer has the windowing parameters of the configuration, and one
    output slice per input slice. *)
Definition slicer_of (config : DataConfig.t)
    (ds : TrajectorySliceDataset State) : Prop :=
  t_skip ds = DataConfig.t_skip config
  ∧ t_history ds = DataConfig.t_history config
  ∧ t_prediction ds = DataConfig.t_prediction config
  ∧ length (in_slices ds) = length (out_slices ds).

(** [torch.randperm(n) + N_begin]; [randperm] is the oracle that draws the
    permutation of [0 .. n - 1]. *)
Definition torch_randperm (randperm : Z → list Z) (n : Z) : outcome (list Z) :=
  if bool_decide (0 ≤ n) then Ok (randperm n) else Raise RuntimeError.

(** The indices [selection] that [get_trajectories] loads. *)
Definition get_selection (randperm : Z → list Z) (self : SystemDataManager)
    (N_begin N_end N_requested : Z) : outcome (list Z) :=
  let n_on_disk := n_on_disk self in
  if bool_decide (N_end ≤ n_on_disk) then
    order ←! torch_randperm randperm (N_end - N_begin);
    let trajectory_order := (λ i, i + N_begin) <$> order in
    Ok (py_slice trajectory_order None (Some N_requested))
  else Raise AssertionError.

Definition get_trajectories (randperm : Z → list Z) (dir : Dir)
    (self : SystemDataManager) (N_begin N_end N_requested : Z)
    : outcome (list Tensor) :=
  selection ←! get_selection randperm self N_begin N_end N_requested;
  load_all dir selection.

Definition make_trajectory_set (self : SystemDataManager)
    (trajectories : list Tensor) : outcome TrajectorySet :=
  let config := config self in
  slice_dataset ←! TrajectorySliceDataset_init trajectories
    (DataConfig.t_skip config) (DataConfig.t_history config)
    (DataConfig.t_prediction config);
  Ok (mkTrajectorySet slice_dataset trajectories).

(** [set.trajectories.extend(trajectory_list)] followed by the loop that
    slices each new trajectory. *)
Definition extend_set (set : TrajectorySet) (trajectory_list : list Tensor)
    : outcome unit * TrajectorySet :=
  let extended := trajectories set ++ trajectory_list in
  let (result, sliced) := add_each trajectory_list (slices set) in
  (result, mkTrajectorySet sliced extended).

(** The three-way cut of the loaded trajectories. *)
Definition cut3 {A} (traj_set : list A) (N_train N_valid : Z)
    : list A * list A * list A :=
  let train_traj := py_slice traj_set None (Some N_train) in
  let traj_set := py_slice traj_set (Some N_train) None in
  let valid_traj := py_slice traj_set None (Some N_valid) in
  let test_traj := py_slice traj_set (Some N_valid) None in
  (train_traj, valid_traj, test_traj).

(** The sizes computed by the first call. *)
Definition initial_sizes (config : DataConfig.t) (n_on_disk : Z) : Z * Z * Z :=
  let N_train := round_fraction n_on_disk (DataConfig.train_fraction config) in
  let N_valid := round_fraction n_on_disk (DataConfig.valid_fraction config) in
  let N_test := round_fraction n_on_disk (DataConfig.test_fraction config) in
  let N_test := Z.min N_test (n_on_disk - N_train - N_valid) in
  (N_train, N_valid, N_test).

(** The sizes computed when the directory has grown by [new_count]. *)
Definition update_sizes (config : DataConfig.t) (new_count : Z) : Z * Z * Z :=
  let N_train := round_fraction new_count (DataConfig.train_fraction config) in
  let N_valid := round_fraction new_count (DataConfig.valid_fraction config) in
  let N_test := round_fraction new_count (DataConfig.test_fraction config) in
  (N_train, N_valid, N_test).

(** [return self.train_set, self.valid_set, self.test_set] *)
Definition return_sets (self : SystemDataManager)
    : outcome (TrajectorySet * TrajectorySet * TrajectorySet) :=
  match train_set self, valid_set self, test_set self with
  | Some train, Some valid, Some test => Ok (train, valid, test)
  | _, _, _ => Raise AttributeError
  end.

(** The branch of [get_trajectory_split] taken when no split exists. *)
Definition initial_split (randperm : Z → list Z) (dir : Dir)
    (self : SystemDataManager) : outcome unit * SystemDataManager :=
  let n_on_disk := n_on_disk self in
  let '(N_train, N_valid, N_test) := initial_sizes (config self) n_on_disk in
  let N_tot := N_train + N_test + N_valid in
  match get_trajectories randperm dir self 0 n_on_disk N_tot with
  | Raise e => (Raise e, self)
  | Ok traj_set =>
      let '(train_traj, valid_traj, test_traj) := cut3 traj_set N_train N_valid in
      match make_trajectory_set self train_traj with
      | Raise e => (Raise e, self)
      | Ok train =>
          let self := mkManager (config self) n_on_disk (Some train)
                        (valid_set self) (test_set self) in
          match make_trajectory_set self valid_traj with
          | Raise e => (Raise e, self)
          | Ok valid =>
              let self := mkManager (config self) n_on_disk (train_set self)
                            (Some valid) (test_set self) in
              match make_trajectory_set self test_traj with
              | Raise e => (Raise e, self)
              | Ok test =>
                  (Ok (), mkManager (config self) n_on_disk (train_set self)
                            (valid_set self) (Some test))
              end
          end
      end
  end.

(** The branch taken in dynamic mode once a split exists. *)
Definition update_split (randperm : Z → list Z) (dir : Dir)
    (self : SystemDataManager) : outcome unit * SystemDataManager :=
  let n_on_disk := n_on_disk self in
  let n_on_disk_new := get_trajectory_count dir in
  if bool_decide (n_on_disk_new ≠ n_on_disk) then
    let new_count := n_on_disk_new - n_on_disk in
    let self := mkManager (config self) n_on_disk_new (train_set self)
                  (valid_set self) (test_set self) in
    let '(N_train, N_valid, N_test) := update_sizes (config self) new_count in
    let N_tot := N_train + N_test + N_valid in
    match get_trajectories randperm dir self n_on_disk n_on_disk_new N_tot with
    | Raise e => (Raise e, self)
    | Ok new_traj_set =>
        let '(train_traj, valid_traj, test_traj) :=
          cut3 new_traj_set N_train N_valid in
        match train_set self, valid_set self, test_set self with
        | Some train, Some valid, Some test =>
            let (r1, train) := extend_set train train_traj in
            let self := mkManager (config self) n_on_disk_new (Some train)
                          (valid_set self) (test_set self) in
            match r1 with
            | Raise e => (Raise e, self)
            | Ok _ =>
                let (r2, valid) := extend_set valid valid_traj in
                let self := mkManager (config self) n_on_disk_new
                              (train_set self) (Some valid) (test_set self) in
                match r2 with
                | Raise e => (Raise e, self)
                | Ok _ =>
                    let (r3, test) := extend_set test test_traj in
                    (r3, mkManager (config self) n_on_disk_new
                           (train_set self) (valid_set self) (Some test))
                end
            end
        | _, _, _ => (Raise AttributeError, self)
        end
    end
  else (Ok (), self).

Definition get_trajectory_split (randperm : Z → list Z) (dir : Dir)
    (self : SystemDataManager)
    : outcome (TrajectorySet * TrajectorySet * TrajectorySet) * SystemDataManager :=
  let (result, self) :=
    if bool_decide (train_set self = None)
    then initial_split randperm dir self
    else if truthy (DataConfig.dynamic_updates_from (config self))
    then update_split randperm dir self
    else (Ok (), self) in
  match result with
  | Raise e => (Raise e, self)
  | Ok _ => (return_sets self, self)
  end.

(** [split_of dir self i_train i_valid i_test]: the manager holds a split
    whose three sets are the files of the directory at the indices
    [i_train], [i_valid] and [i_test]; no index is used twice, all are below
    the count the manager has recorded, and the slicers have the windowing
    of the configuration. *)
Definition split_of (dir : Dir) (self : SystemDataManager)
    (i_train i_valid i_test : list Z) : Prop :=
  ∃ train valid test,
    train_set self = Some train
    ∧ valid_set self = Some valid
    ∧ test_set self = Some test
    ∧ loaded_from dir i_train (trajectories train)
    ∧ loaded_from dir i_valid (trajectories valid)
    ∧ loaded_from dir i_test (trajectories test)
    ∧ slicer_of (config self) (slices train)
    ∧ slicer_of (config self) (slices valid)
    ∧ slicer_of (config self) (slices test)
    ∧ NoDup (i_train ++ i_valid ++ i_test)
    ∧ ∀ i, i ∈ i_train ++ i_valid ++ i_test → 0 ≤ i < n_on_disk self.

End Manager.
Arguments TrajectorySet : clear implicits.
Arguments SystemDataManager : clear implicits.

(** ** SystemDataManager.generate

    [sample k T i] is the oracle for the simulator and the noise: the [i]-th
    noised trajectory of length [T] of the [k]-th batch. [external k] is the
    oracle for the other processes that share the directory: what they have
    done to it by the time the [k]-th batch has been simulated and the count
    is read again. The state of the loop carries the list of the indices
    saved so far, which the source does not keep. *)

Section Generate.
Context {State : Type}.
Local Abbreviation Tensor := (list State).
Local Abbreviation Dir := (gmap string (list State)).

Definition generate_trajectory_set (sample : nat → Z → Z → Tensor)
    (config : DataConfig.t) (k : nat) (N T : Z) : outcome (list Tensor) :=
  if bool_decide (0 ≤ N) then
    if bool_decide (1 ≤ T) then
      match DataConfig.generation_config config with
      | None => Raise AssertionError
      | Some _ => Ok (sample k T <$> range 0 N)
      end
    else Raise AssertionError
  else Raise AssertionError.

Record generate_state : Type := mkGenerate {
  gen_dir : Dir;
  n_generated : Z;
  n_set : Z;
  saved : list Z
}.

(** [for i in range(n_set): torch.save(traj_i[i], trajectory_file(storage,
    n_generated + i))] *)
Fixpoint save_each (traj_i : list Tensor) (n_generated : Z) (indices : list Z)
    (dir : Dir) (saved : list Z) : outcome unit * (Dir * list Z) :=
  match indices with
  | [] => (Ok (), (dir, saved))
  | i :: rest =>
      match py_getitem traj_i i with
      | Raise e => (Raise e, (dir, saved))
      | Ok trajectory =>
          save_each traj_i n_generated rest
            (torch_save trajectory (n_generated + i) dir)
            (saved ++ [n_generated + i])
      end
  end.

Inductive loop_exit : Set := Continue | Break.

(** One turn of the [while] loop of [generate]. *)
Definition generate_body (sample : nat → Z → Z → Tensor)
    (external : nat → Dir → Dir) (config : DataConfig.t)
    (n_pop traj_len : Z) (k : nat) (st : generate_state)
    : outcome loop_exit * generate_state :=
  match generate_trajectory_set sample config k (n_set st) traj_len with
  | Raise e => (Raise e, st)
  | Ok traj_i =>
      let dir := external k (gen_dir st) in
      let n_generated := get_trajectory_count dir in
      if bool_decide (n_generated = n_pop) then
        (Ok Break, mkGenerate dir n_generated (n_set st) (saved st))
      else
        let n_set := Z.min (n_set st) (n_pop - n_generated) in
        let '(result, (dir, saved)) :=
          save_each traj_i n_generated (range 0 n_set) dir (saved st) in
        (match result with Ok _ => Ok Continue | Raise e => Raise e end,
         mkGenerate dir n_generated n_set saved)
  end.

(** The [while] loop; [None] when the fuel runs out before the loop ends. *)
Fixpoint generate_loop (fuel : nat) (sample : nat → Z → Z → Tensor)
    (external : nat → Dir → Dir) (config : DataConfig.t)
    (n_pop traj_len : Z) (k : nat) (st : generate_state)
    : option (outcome unit * generate_state) :=
  match fuel with
  | O => None
  | S fuel =>
      if bool_decide (n_generated st < n_pop) then
        match generate_body sample external config n_pop traj_len k st with
        | (Ok Continue, st) =>
            generate_loop fuel sample external config n_pop traj_len (S k) st
        | (Ok Break, st) => Some (Ok (), st)
        | (Raise e, st) => Some (Raise e, st)
        end
      else Some (Ok (), st)
  end.

Definition generate (fuel : nat) (sample : nat → Z → Z → Tensor)
    (external : nat → Dir → Dir) (config : DataConfig.t) (dir : Dir)
    : option (outcome unit * generate_state) :=
  match DataConfig.generation_config config with
  | None => Some (Raise AssertionError, mkGenerate dir 0 0 [])
  | Some generation_config =>
      let traj_len := DataGenerationConfig.traj_len generation_config in
      let n_pop := DataGenerationConfig.n_pop generation_config in
      let n_generated := get_trajectory_count dir in
      let n_set := 30 in
      generate_loop fuel sample external config n_pop traj_len O
        (mkGenerate dir n_generated n_set [])
  end.

(** What the head of a turn can rely on. *)
Definition head_inv (n_pop : Z) (st : generate_state) : Prop :=
  (n_generated st < n_pop → 1 ≤ n_set st)
  ∧ (n_generated st < n_pop ∨ n_generated st = get_trajectory_count (gen_dir st))
  ∧ 0 ≤ n_generated st
  ∧ ∀ i, i ∈ saved st → 0 ≤ i < n_pop.

(** [loop_head ... dir k st]: started on the directory [dir], the loop of
    [generate] comes to the head of its [k]-th turn in the state [st]. *)
Inductive loop_head (sample : nat → Z → Z → Tensor)
    (external : nat → Dir → Dir) (config : DataConfig.t)
    (n_pop traj_len : Z) (dir : Dir) : nat → generate_state → Prop :=
  | loop_head_first :
      loop_head sample external config n_pop traj_len dir O
        (mkGenerate dir (get_trajectory_count dir) 30 [])
  | loop_head_next k st st' :
      loop_head sample external config n_pop traj_len dir k st →
      n_generated st < n_pop →
      generate_body sample external config n_pop traj_len k st
      = (Ok Continue, st') →
      loop_head sample external config n_pop traj_len dir (S k) st'.

End Generate.

(** ** What slicers and managers keep *)

Section Invariants.
Context {State : Type}.

(** The windowing is valid and every stored history window has [t_history]
    states, every stored future window [t_prediction]. *)
Definition windows_ok (self : TrajectorySliceDataset State) : Prop :=
  t_history self ≤ t_skip self + 1
  ∧ 0 ≤ t_history self
  ∧ 0 ≤ t_prediction self
  ∧ Forall (λ s, Z.of_nat (length s) = t_history self) (in_slices self)
  ∧ Forall (λ s, Z.of_nat (length s) = t_prediction self) (out_slices self).

End Invariants.

(** ** drake_utils

    The plant and the inspector of the scene graph are objects of Drake and
    are oracles here. [GetCollisionCandidates] is the sequence in which the
    inspector yields its candidate pairs, and [GetFriction g] is
    [GetProximityProperties(g).GetProperty("material", "coulomb_friction")],
    [None] when one of the two calls raises. *)

Module drake_utils.

Inductive error : Set :=
  | ValueError       (* [list.index] of an element that is not in the list *)
  | InspectorError.  (* raised inside the inspector *)

Inductive result (A : Type) : Type :=
  | Returned (a : A)
  | Raised (e : error).
Arguments Returned {A} a.
Arguments Raised {A} e.

Section Bodies.

Record Body : Set := mkBody {
  model_instance : Z;
  name : string
}.

Record MultibodyPlant : Type := mkPlant {
  GetBodyIndices : Z → list Z;
  get_body : Z → Body;
  GetModelInstanceName : Z → string
}.

Definition get_bodies_in_model_instance (plant : MultibodyPlant)
    (model_instance_index : Z) : list Body :=
  let body_indices := GetBodyIndices plant model_instance_index in
  get_body plant <$> body_indices.

Definition get_body_names_in_model_instance (plant : MultibodyPlant)
    (model_instance_index : Z) : list string :=
  let bodies := get_bodies_in_model_instance plant model_instance_index in
  name <$> bodies.

(** [f'{plant.GetModelInstanceName(body.model_instance())}_{body.name()}'] *)
Definition unique_body_identifier (plant : MultibodyPlant) (body : Body)
    : string :=
  GetModelInstanceName plant (model_instance body) +:+ "_" +:+ name body.

Definition get_all_bodies (plant : MultibodyPlant)
    (model_instance_indices : list Z) : list Body * list string :=
  let bodies :=
    foldl (λ bodies model_instance_index,
             bodies ++ get_bodies_in_model_instance plant model_instance_index)
      [] model_instance_indices in
  (bodies, unique_body_identifier plant <$> bodies).

(** [world] is [world_model_instance()], the index that Drake gives to the
    model instance of the world. *)
Definition get_all_inertial_bodies (world : Z) (plant : MultibodyPlant)
    (model_instance_indices : list Z) : list Body * list string :=
  get_all_bodies plant
    (filter (λ model_index, model_index ≠ world) model_instance_indices).

(** The plant lists every body under its own model instance, and within
    the given model instances no two model instances and no two bodies of
    one model instance share a name. *)
Definition well_named (plant : MultibodyPlant)
    (model_instance_indices : list Z) : Prop :=
  (∀ i j, i ∈ model_instance_indices → j ∈ model_instance_indices →
          GetModelInstanceName plant i = GetModelInstanceName plant j → i = j)
  ∧ ∀ i, i ∈ model_instance_indices →
         NoDup (get_body_names_in_model_instance plant i)
         ∧ Forall (λ body, model_instance body = i)
             (get_bodies_in_model_instance plant i).

(** The string holds no underscore. *)
Fixpoint no_underscore (s : string) : bool :=
  match s with
  | EmptyString => true
  | String c rest => negb (Ascii.eqb c "_") && no_underscore rest
  end.

End Bodies.

Section Geometry.
Context {GeometryId CoulombFriction : Type} `{EqDecision GeometryId}.

Record SceneGraphInspector : Type := mkInspector {
  GetCollisionCandidates : list (GeometryId * GeometryId);
  GetFriction : GeometryId → option CoulombFriction
}.

Record CollisionGeometrySet : Type := mkCollisionGeometrySet {
  ids : list GeometryId;
  frictions : list CoulombFriction;
  collision_candidates : list (Z * Z)
}.

(** [l.index(x)]: the first position of [x], [None] for the [ValueError]. *)
Fixpoint list_index (x : GeometryId) (l : list GeometryId) : option Z :=
  match l with
  | [] => None
  | y :: rest =>
      if bool_decide (y = x) then Some 0 else Z.succ <$> list_index x rest
  end.

(** [if geometry_id not in geometry_ids: geometry_ids.append(geometry_id)] *)
Definition add_id (geometry_ids : list GeometryId) (geometry_id : GeometryId)
    : list GeometryId :=
  if bool_decide (geometry_id ∈ geometry_ids) then geometry_ids
  else geometry_ids ++ [geometry_id].

(** One turn of the loop over the candidate pairs. *)
Definition add_candidate
    (state : result (list GeometryId * list (Z * Z)))
    (candidate : GeometryId * GeometryId)
    : result (list GeometryId * list (Z * Z)) :=
  match state with
  | Raised e => Raised e
  | Returned (geometry_ids, geometry_pairs) =>
      let '(geometry_id_a, geometry_id_b) := candidate in
      let geometry_ids := foldl add_id geometry_ids [geometry_id_a; geometry_id_b] in
      match list_index geometry_id_a geometry_ids with
      | None => Raised ValueError
      | Some geometry_index_a =>
          match list_index geometry_id_b geometry_ids with
          | None => Raised ValueError
          | Some geometry_index_b =>
              Returned (geometry_ids,
                        geometry_pairs ++ [(geometry_index_a, geometry_index_b)])
          end
      end
  end.

(** The loop over the geometries that collects their frictions. *)
Fixpoint collect_frictions (inspector : SceneGraphInspector)
    (geometry_ids : list GeometryId) : result (list CoulombFriction) :=
  match geometry_ids with
  | [] => Returned []
  | geometry_id :: rest =>
      match GetFriction inspector geometry_id with
      | None => Raised InspectorError
      | Some coulomb_friction =>
          match collect_frictions inspector rest with
          | Raised e => Raised e
          | Returned coulomb_frictions =>
              Returned (coulomb_friction :: coulomb_frictions)
          end
      end
  end.

Definition get_collision_geometry_set (inspector : SceneGraphInspector)
    : result CollisionGeometrySet :=
  match foldl add_candidate (Returned ([], []))
          (GetCollisionCandidates inspector) with
  | Raised e => Raised e
  | Returned (geometry_ids, geometry_pairs) =>
      match collect_frictions inspector geometry_ids with
      | Raised e => Raised e
      | Returned coulomb_frictions =>
          Returned (mkCollisionGeometrySet geometry_ids coulomb_frictions
                      geometry_pairs)
      end
  end.

(** The pair of positions [pair] names the candidate [candidate] in the
    list [geometry_ids]. *)
Definition decodes (geometry_ids : list GeometryId)
    (candidate : GeometryId * GeometryId) (pair : Z * Z) : Prop :=
  0 ≤ pair.1 ∧ 0 ≤ pair.2
  ∧ geometry_ids !! Z.to_nat pair.1 = Some candidate.1
  ∧ geometry_ids !! Z.to_nat pair.2 = Some candidate.2.

(** The geometry is one of a candidate pair. *)
Definition candidate_id (candidates : list (GeometryId * GeometryId))
    (g : GeometryId) : Prop :=
  ∃ candidate, candidate ∈ candidates ∧ (g = candidate.1 ∨ g = candidate.2).

End Geometry.
Arguments SceneGraphInspector : clear implicits.
Arguments CollisionGeometrySet : clear implicits.

End drake_utils.

(** ** Concrete inputs used by the examples *)

Section Examples.
Local Open Scope string_scope.

(** A directory with one file whose name starts with a digit and is not a
    number. *)
Definition dir_7abc : gmap string (list Z) := {[ "7abc.pt" := [] ]}.

(** The directory of the docstring of [get_numeric_file_count]. *)
Definition dir_7_11_4 : gmap string (list Z) :=
  <["7.pt" := []]> (<["11.pt" := []]> {[ "4.pt" := [] ]}).

(** A trajectory of [len] one-number states, [start], [start + 1], ... *)
Definition ramp (start len : Z) : list Z := seqZ start len.

(** [n] trajectories of three states each, and the directory that holds
    them under the indices [0 .. n - 1]. *)
Definition ramps (n : Z) : list (list Z) := (λ i, ramp (10 * i) 3) <$> seqZ 0 n.
Definition ramp_dir (n : Z) : gmap string (list Z) := store_of (ramps n).

(** The permutation oracle that leaves the indices in order. *)
Definition identity_perm (n : Z) : list Z := seqZ 0 n.

(** A slicer with [t_skip = 1], [t_history = 2], [t_prediction = 2], and
    one with the default windowing. *)
Definition slicer_1_2_2 : TrajectorySliceDataset Z := mkSlicer 1 2 2 [] [].
Definition slicer_0_1_1 : TrajectorySliceDataset Z := mkSlicer 0 1 1 [] [].

(** The first of these slicers after the trajectory [0, 1, 2, 3, 4] has been
    appended. *)
Definition slicer_after_A : TrajectorySliceDataset Z :=
  (add_sliced_trajectory (ramp 0 5) slicer_1_2_2).2.

(** The default windowing and fractions of [DataConfig], in dynamic mode
    with the given threshold. *)
Definition dynamic_config (dynamic_updates_from : Z) : DataConfig.t :=
  DataConfig.mk "/storage" (1 # 2) (1 # 4) (1 # 4) 0 1 1 None None
    (Some dynamic_updates_from).

(** The same with [dynamic_updates_from = 1] and fractions (0.5, 0.5, 0),
    and with fractions (0.25, 0.25, 0.25). *)
Definition half_half_config : DataConfig.t :=
  DataConfig.mk "/storage" (1 # 2) (1 # 2) 0 0 1 1 None None (Some 1).
Definition quarters_config : DataConfig.t :=
  DataConfig.mk "/storage" (1 # 4) (1 # 4) (1 # 4) 0 1 1 None None (Some 1).

(** A configuration that generates five trajectories of three states. *)
Definition generation_config_5_3 : DataGenerationConfig.t :=
  DataGenerationConfig.mk 5 3.
Definition generate_config : DataConfig.t :=
  DataConfig.mk "/storage" (1 # 2) (1 # 4) (1 # 4) 0 1 1
    (Some generation_config_5_3) None None.

(** A simulator, and other writers that do nothing. *)
Definition ramp_sample (k : nat) (T i : Z) : list Z := ramp (100 * Z.of_nat k + i) T.
Definition nobody (k : nat) (dir : gmap string (list Z)) : gmap string (list Z) := dir.

(** A manager before its first split, and the manager that its first call
    leaves. *)
Definition new_manager (config : DataConfig.t) (n_on_disk : Z)
    : SystemDataManager Z :=
  mkManager config n_on_disk None None None.
Definition split_manager (config : DataConfig.t) (n_on_disk : Z)
    : SystemDataManager Z :=
  (get_trajectory_split identity_perm (ramp_dir n_on_disk)
     (new_manager config n_on_disk)).2.

(** A set that holds nothing, for attributes that are not there. *)
Definition no_set : TrajectorySet Z := mkTrajectorySet slicer_0_1_1 [].
Definition train_of (self : SystemDataManager Z) : TrajectorySet Z :=
  default no_set (train_set self).
Definition valid_of (self : SystemDataManager Z) : TrajectorySet Z :=
  default no_set (valid_set self).
Definition test_of (self : SystemDataManager Z) : TrajectorySet Z :=
  default no_set (test_set self).

(** A file system with one misnamed file in the data directory of the
    storage and two trajectories in the directory to import. *)
Definition import_fs : gmap string (gmap string (list Z)) :=
  <["/storage/data" := dir_7abc]> {[ "/import" := ramp_dir 2 ]}.

(** The directory of four trajectories after the file of index 1 has been
    removed, and that of five after the file of index 0 has been removed. *)
Definition ramp_dir_without_1 : gmap string (list Z) :=
  delete (file_utils.trajectory_basename 1) (ramp_dir 4).
Definition ramp_dir_without_0 : gmap string (list Z) :=
  delete (file_utils.trajectory_basename 0) (ramp_dir 5).

(** A directory of four trajectories of which the third is empty, and the
    manager that a first split on this directory leaves. *)
Definition short_dir : gmap string (list Z) :=
  store_of [ramp 0 3; ramp 10 3; []; ramp 30 3].
Definition half_built_manager : SystemDataManager Z :=
  (get_trajectory_split identity_perm short_dir
     (new_manager (dynamic_config 1) 4)).2.

(** A file system with the directory of the docstring of
    [append_by_extension], and one with a sweep directory of two
    summaries. *)
Definition fldr_fs : gmap string (gmap string Z) :=
  {[ "/fldr" := file_utils.numbered ".pt" [10; 11; 12] ]}.
Definition sweep_fs : gmap string (gmap string Z) :=
  {[ file_utils.path_join "/storage" (pretty 5)
       := file_utils.numbered file_utils.STATS_EXTENSION [1; 2] ]}.

(** Inspectors over geometries and frictions that are numbers: three
    geometries that may collide pairwise, the first pair of them alone, and
    an inspector without a friction for the geometry 2. *)
Definition friction_of (g : Z) : option Z := Some (10 * g).
Definition first_candidates : list (Z * Z) := [(1, 2)].
Definition more_candidates : list (Z * Z) := [(2, 3); (1, 3)].
Definition triangle_inspector : drake_utils.SceneGraphInspector Z Z :=
  drake_utils.mkInspector (first_candidates ++ more_candidates) friction_of.
Definition bad_inspector : drake_utils.SceneGraphInspector Z Z :=
  drake_utils.mkInspector first_candidates
    (λ g, if bool_decide (g = 2) then None else Some g).
Definition first_set : drake_utils.CollisionGeometrySet Z Z :=
  drake_utils.mkCollisionGeometrySet [1; 2] [10; 20] [(0, 1)].
Definition triangle_set : drake_utils.CollisionGeometrySet Z Z :=
  drake_utils.mkCollisionGeometrySet [1; 2; 3] [10; 20; 30]
    [(0, 1); (1, 2); (0, 2)].

(** A plant with the world, which has one body, and two models, a cube
    with two bodies and a ground with one. *)
Definition cube_ground_plant : drake_utils.MultibodyPlant :=
  drake_utils.mkPlant
    (λ i, if bool_decide (i = 0) then [0]
          else if bool_decide (i = 1) then [1; 2]
          else if bool_decide (i = 2) then [3] else [])
    (λ k, if bool_decide (k = 0) then drake_utils.mkBody 0 "world"
          else if bool_decide (k = 1) then drake_utils.mkBody 1 "body"
          else if bool_decide (k = 2) then drake_utils.mkBody 1 "lid"
          else drake_utils.mkBody 2 "body")
    (λ i, if bool_decide (i = 0) then "WorldModelInstance"
          else if bool_decide (i = 1) then "cube" else "ground").

(** A plant whose model instances are all named [cube], and two bodies of
    different model instances with the same name. *)
Definition cube_plant : drake_utils.MultibodyPlant :=
  drake_utils.mkPlant (λ _, []) (λ _, drake_utils.mkBody 0 "body") (λ _, "cube").
Definition body_1 : drake_utils.Body := drake_utils.mkBody 1 "body".
Definition body_2 : drake_utils.Body := drake_utils.mkBody 2 "body".

End Examples.

(** * Theorems *)

(** ** Python primitives *)

Lemma py_slice_window {A} (l : list A) (a b : Z) :
  0 ≤ a → a ≤ b → b ≤ Z.of_nat (length l) →
  py_slice l (Some a) (Some b) = take (Z.to_nat (b - a)) (drop (Z.to_nat a) l)
  ∧ length (py_slice l (Some a) (Some b)) = Z.to_nat (b - a).
Proof.
  intros Ha Hab Hb. unfold py_slice, py_bound. simpl.
  rewrite !bool_decide_eq_false_2 by lia.
  rewrite !Z.min_l by lia. split; [done|].
  rewrite length_take, length_drop. lia.
Qed.

Lemma py_getitem_app_l {A} (l l' : list A) (idx : Z) :
  0 ≤ idx < Z.of_nat (length l) →
  py_getitem (l ++ l') idx = py_getitem l idx.
Proof.
  intros Hidx. unfold py_getitem.
  rewrite !(bool_decide_eq_false_2 (idx < 0)) by lia.
  rewrite !bool_decide_eq_true_2 by (rewrite ?length_app; lia).
  by rewrite lookup_app_l by lia.
Qed.

Lemma py_slice_take {A} (l : list A) (k : Z) :
  0 ≤ k → py_slice l None (Some k) = take (Z.to_nat k) l.
Proof.
  intros Hk. unfold py_slice, py_bound. simpl.
  rewrite bool_decide_eq_false_2 by lia. rewrite Z.sub_0_r.
  change (drop (Z.to_nat 0) l) with l.
  destruct (decide (k ≤ Z.of_nat (length l))).
  - by rewrite Z.min_l by lia.
  - rewrite Z.min_r by lia.
    rewrite (take_ge l (Z.to_nat k)) by lia.
    by rewrite take_ge by lia.
Qed.

Lemma py_slice_drop {A} (l : list A) (k : Z) :
  0 ≤ k → py_slice l (Some k) None = drop (Z.to_nat k) l.
Proof.
  intros Hk. unfold py_slice, py_bound. simpl.
  rewrite bool_decide_eq_false_2 by lia.
  rewrite take_ge by (rewrite length_drop; lia).
  destruct (decide (k ≤ Z.of_nat (length l))).
  - by rewrite Z.min_l by lia.
  - rewrite Z.min_r by lia.
    rewrite (drop_ge l (Z.to_nat k)) by lia.
    by rewrite drop_ge by lia.
Qed.

Lemma py_round_bounds (x : Q) (n : Z) :
  (0 <= x)%Q → (x <= inject_Z n)%Q → 0 ≤ py_round x ≤ n.
Proof.
  intros H0 Hn. unfold py_round.
  pose proof (Qfloor_le x) as Hfl.
  pose proof (Qlt_floor x) as Hfu.
  assert (0 ≤ Qfloor x) as Hf0.
  { change 0 with (Qfloor 0). by apply Qfloor_resp_le. }
  assert (Qfloor x ≤ n) as Hfn.
  { rewrite <-(Qfloor_Z n). by apply Qfloor_resp_le. }
  assert ((1 # 2 <= x - inject_Z (Qfloor x))%Q → Qfloor x + 1 ≤ n) as Hup.
  { intros Hhalf. cut (Qfloor x < n); [lia|].
    rewrite Zlt_Qlt. lra. }
  destruct (Qcompare_spec (x - inject_Z (Qfloor x)) (1 # 2)) as [He|Hl|Hg].
  - destruct (Z.even (Qfloor x)); [lia|]. split; [lia|]. apply Hup. lra.
  - lia.
  - split; [lia|]. apply Hup. lra.
Qed.

Lemma inject_Z_nonneg (n : Z) : 0 ≤ n → (0 <= inject_Z n)%Q.
Proof. intros Hn. change (inject_Z 0 <= inject_Z n)%Q. by rewrite <-Zle_Qle. Qed.

Lemma round_fraction_bounds (n : Z) (fraction : Q) :
  0 ≤ n → (0 <= fraction)%Q → (fraction <= 1)%Q →
  0 ≤ round_fraction n fraction ≤ n.
Proof.
  intros Hn H0 H1. apply py_round_bounds.
  - apply Qmult_le_0_compat; [|done]. by apply inject_Z_nonneg.
  - rewrite <-(Qmult_1_r (inject_Z n)) at 2.
    apply Qmult_le_compat_nonneg; split; try done; try apply Qle_refl.
    by apply inject_Z_nonneg.
Qed.

(** ** The slicer *)

Section SlicerFacts.
Context {State : Type}.
Local Abbreviation Tensor := (list State).
Implicit Types (self : TrajectorySliceDataset State) (traj : Tensor).

Lemma foldl_append_slice traj self (anchors : list Z) :
  foldl (append_slice traj) self anchors
  = mkSlicer (t_skip self) (t_history self) (t_prediction self)
      (in_slices self ++ ((in_slice traj (t_history self)) <$> anchors))
      (out_slices self ++ ((out_slice traj (t_prediction self)) <$> anchors)).
Proof.
  revert self. induction anchors as [|i anchors IH]; intros self; simpl.
  - rewrite !app_nil_r. by destruct self.
  - rewrite IH. simpl. by rewrite <-!app_assoc.
Qed.

Lemma in_slice_window traj (w i : Z) :
  0 ≤ i + 1 - w → 0 ≤ w → i + 1 ≤ Z.of_nat (length traj) →
  in_slice traj w i = window traj (i + 1 - w) w
  ∧ Z.of_nat (length (window traj (i + 1 - w) w)) = w.
Proof.
  intros H0 Hw Hi. unfold in_slice, window.
  destruct (py_slice_window traj (i + 1 - w) (i + 1)) as [Heq Hlen]; [lia..|].
  replace (i + 1 - (i + 1 - w)) with w in Heq, Hlen by lia.
  rewrite <-Heq, Hlen. split; [done|lia].
Qed.

Lemma out_slice_window traj (w i : Z) :
  0 ≤ i + 1 → 0 ≤ w → i + 1 + w ≤ Z.of_nat (length traj) →
  out_slice traj w i = window traj (i + 1) w
  ∧ Z.of_nat (length (window traj (i + 1) w)) = w.
Proof.
  intros H0 Hw Hi. unfold out_slice, window.
  destruct (py_slice_window traj (i + 1) (i + 1 + w)) as [Heq Hlen]; [lia..|].
  replace (i + 1 + w - (i + 1)) with w in Heq, Hlen by lia.
  rewrite <-Heq, Hlen. split; [done|lia].
Qed.

Lemma add_sliced_trajectory_short traj self :
  Z.of_nat (length traj) < t_skip self + t_prediction self →
  add_sliced_trajectory traj self = (Raise AssertionError, self).
Proof.
  intros H. unfold add_sliced_trajectory.
  by rewrite bool_decide_eq_false_2 by lia.
Qed.

Lemma add_sliced_trajectory_long traj self :
  t_skip self + t_prediction self ≤ Z.of_nat (length traj) →
  add_sliced_trajectory traj self
  = (Ok (),
     let anchors := range (t_skip self) (Z.of_nat (length traj) - t_prediction self) in
     mkSlicer (t_skip self) (t_history self) (t_prediction self)
       (in_slices self ++ (in_slice traj (t_history self) <$> anchors))
       (out_slices self ++ (out_slice traj (t_prediction self) <$> anchors))).
Proof.
  intros H. unfold add_sliced_trajectory.
  rewrite bool_decide_eq_true_2 by lia. by rewrite foldl_append_slice.
Qed.

(** C3, amended. With [t_skip + 1 >= t_history], [t_history >= 1] and
    [t_prediction >= 1], appending a trajectory of length [L] raises an
    assertion error and stores nothing when [L < t_skip + t_prediction];
    otherwise it appends exactly [L - t_prediction - t_skip] slice pairs, the
    [k]-th of them anchored at time [t_skip + k], with the [t_history] rows
    ending at the anchor as history window and the [t_prediction] rows after
    the anchor as future window. *)
Theorem add_sliced_trajectory_slices traj self :
  t_history self ≤ t_skip self + 1 →
  1 ≤ t_history self →
  1 ≤ t_prediction self →
  let L := Z.of_nat (length traj) in
  let n := L - t_prediction self - t_skip self in
  (L < t_skip self + t_prediction self →
     add_sliced_trajectory traj self = (Raise AssertionError, self))
  ∧ (t_skip self + t_prediction self ≤ L →
     ∃ ins outs : list Tensor,
       add_sliced_trajectory traj self
       = (Ok (), mkSlicer (t_skip self) (t_history self) (t_prediction self)
                   (in_slices self ++ ins) (out_slices self ++ outs))
       ∧ length ins = Z.to_nat n
       ∧ length outs = Z.to_nat n
       ∧ ∀ k : nat, Z.of_nat k < n →
           let anchor := t_skip self + Z.of_nat k in
           let history := window traj (anchor + 1 - t_history self) (t_history self) in
           let future := window traj (anchor + 1) (t_prediction self) in
           ins !! k = Some history
           ∧ outs !! k = Some future
           ∧ Z.of_nat (length history) = t_history self
           ∧ Z.of_nat (length future) = t_prediction self).
Proof.
  intros Hh H1 Hp L n. split; [apply add_sliced_trajectory_short|].
  intros HL. rewrite add_sliced_trajectory_long by done.
  eexists _, _. split; [reflexivity|].
  unfold range. rewrite !length_fmap, !length_seqZ.
  split; [f_equal; lia|]. split; [f_equal; lia|].
  intros k Hk. set (anchor := t_skip self + Z.of_nat k).
  rewrite !list_lookup_fmap, lookup_seqZ_lt by lia. simpl. fold anchor.
  destruct (in_slice_window traj (t_history self) anchor) as [-> ?];
    [unfold anchor; lia..|].
  destruct (out_slice_window traj (t_prediction self) anchor) as [-> ?];
    [unfold anchor; lia..|].
  done.
Qed.

(** C7, amended. Appending a trajectory shorter than
    [t_skip + t_prediction] raises an assertion error and leaves the slicer
    as it was; a trajectory of length exactly [t_skip + t_prediction], which
    has no valid anchor either, is accepted silently and contributes no
    slice. *)
Theorem add_sliced_trajectory_no_anchor traj self :
  t_history self ≤ t_skip self + 1 →
  let L := Z.of_nat (length traj) in
  (L < t_skip self + t_prediction self →
     add_sliced_trajectory traj self = (Raise AssertionError, self))
  ∧ (L = t_skip self + t_prediction self →
     add_sliced_trajectory traj self = (Ok (), self)).
Proof.
  intros _ L. split; [apply add_sliced_trajectory_short|].
  intros HL. rewrite add_sliced_trajectory_long by lia.
  unfold range. rewrite seqZ_nil by lia. simpl.
  rewrite !app_nil_r. by destruct self.
Qed.

(** Slicers built by the constructor and grown by appends keep one output
    slice per input slice. *)
Lemma add_sliced_trajectory_paired traj self :
  length (in_slices self) = length (out_slices self) →
  length (in_slices (add_sliced_trajectory traj self).2)
  = length (out_slices (add_sliced_trajectory traj self).2).
Proof.
  intros Hl. unfold add_sliced_trajectory.
  case_bool_decide; simpl; [|done].
  rewrite foldl_append_slice. simpl.
  rewrite !length_app, !length_fmap. lia.
Qed.

Lemma add_each_paired (l : list Tensor) self :
  length (in_slices self) = length (out_slices self) →
  length (in_slices (add_each l self).2) = length (out_slices (add_each l self).2).
Proof.
  revert self. induction l as [|traj l IH]; intros self Hl; [done|].
  simpl. pose proof (add_sliced_trajectory_paired traj self Hl) as Hstep.
  destruct (add_sliced_trajectory traj self) as [[[]|e] self']; simpl in *; auto.
Qed.

(** The constructor builds slicers that keep one output slice per input
    slice. *)
Lemma TrajectorySliceDataset_init_paired (l : list Tensor) (skip history prediction : Z) self :
  TrajectorySliceDataset_init l skip history prediction = Ok self →
  length (in_slices self) = length (out_slices self).
Proof.
  unfold TrajectorySliceDataset_init. case_bool_decide; [|done].
  pose proof (add_each_paired l (mkSlicer skip history prediction [] []) eq_refl)
    as Hpaired.
  destruct (add_each l _) as [[[]|e] self']; [|done].
  by intros [= <-].
Qed.

(** Constructing a slicer from [l ++ [B]] is constructing it from [l] and
    appending [B]. *)
Lemma TrajectorySliceDataset_init_snoc (l : list Tensor) (B : Tensor)
    (skip history prediction : Z) self :
  TrajectorySliceDataset_init l skip history prediction = Ok self →
  TrajectorySliceDataset_init (l ++ [B]) skip history prediction
  = match add_sliced_trajectory B self with
    | (Ok _, self') => Ok self'
    | (Raise e, _) => Raise e
    end.
Proof.
  unfold TrajectorySliceDataset_init. case_bool_decide; [|done].
  generalize (mkSlicer (State := State) skip history prediction [] []).
  intros s0 Hinit.
  assert (add_each l s0 = (Ok (), self)) as Hl.
  { destruct (add_each l s0) as [[[]|e] s]; by simplify_eq. }
  clear Hinit. revert s0 Hl. induction l as [|traj l IH]; intros s0 Hl; simpl in *.
  - injection Hl as ->. by destruct (add_sliced_trajectory B self) as [[[]|e] s].
  - destruct (add_sliced_trajectory traj s0) as [[[]|e] s1]; [|done].
    by apply IH.
Qed.

(** C4. Appending a trajectory [B] to a slicer that holds the slices of
    earlier trajectories (one output slice per input slice) gives the
    earlier slices followed by the slices of [B] (those a fresh slicer of
    the same configuration derives from [B]), with the same outcome as on the
    fresh slicer, and every index handed out before the append,
    [0 <= idx < len], still returns the same pair. *)
Theorem add_sliced_trajectory_append_stable (B : Tensor) self :
  length (in_slices self) = length (out_slices self) →
  let fresh := mkSlicer (t_skip self) (t_history self) (t_prediction self) [] [] in
  let after := (add_sliced_trajectory B self).2 in
  let alone := (add_sliced_trajectory B fresh).2 in
  (add_sliced_trajectory B self).1 = (add_sliced_trajectory B fresh).1
  ∧ in_slices after = in_slices self ++ in_slices alone
  ∧ out_slices after = out_slices self ++ out_slices alone
  ∧ len after = len self + len alone
  ∧ ∀ idx : Z, 0 ≤ idx < len self → getitem after idx = getitem self idx.
Proof.
  intros Hl fresh after alone.
  assert (in_slices after = in_slices self ++ in_slices alone
          ∧ out_slices after = out_slices self ++ out_slices alone
          ∧ (add_sliced_trajectory B self).1 = (add_sliced_trajectory B fresh).1)
    as (Hin & Hout & Hres).
  { unfold after, alone, fresh, add_sliced_trajectory. simpl.
    destruct (bool_decide _); simpl; [|by rewrite !app_nil_r].
    by rewrite !foldl_append_slice. }
  split_and!; try done.
  - unfold len. rewrite Hin, length_app. lia.
  - intros idx Hidx. unfold getitem, len in *. rewrite Hin, Hout.
    by rewrite !py_getitem_app_l by lia.
Qed.

End SlicerFacts.

(** ** file_utils *)

Section FilesFacts.
Import file_utils.
Context {X : Type}.
Local Abbreviation Dir := (gmap string X).
Local Abbreviation FS := (gmap string (gmap string X)).
Implicit Types (fs : FS) (dir : Dir).

Lemma listdir_assure_created (p directory : string) fs :
  listdir p (assure_created directory fs).2 = listdir p fs.
Proof.
  unfold assure_created, listdir. simpl.
  destruct (fs !! directory) eqn:Hd; [done|].
  destruct (decide (directory = p)) as [->|Hne].
  - by rewrite lookup_insert_eq, Hd.
  - by rewrite lookup_insert_ne.
Qed.

Lemma data_dir_path (storage_name : string) fs :
  (data_dir storage_name fs).1 = path_join storage_name "data".
Proof. done. Qed.

Lemma listdir_data_dir (p storage_name : string) fs :
  listdir p (data_dir storage_name fs).2 = listdir p fs.
Proof.
  unfold data_dir, storage_dir.
  destruct (assure_created storage_name fs) as [storage fs1] eqn:H1.
  rewrite listdir_assure_created.
  change fs1 with (storage, fs1).2. rewrite <-H1.
  apply listdir_assure_created.
Qed.


(** *** Names of trajectory files *)

Lemma is_digit_pretty_N_char (n : N) : is_digit (pretty_N_char n) = true.
Proof. unfold pretty_N_char. by repeat case_match. Qed.

Lemma pretty_N_go_digit_first (x : N) (s : string) :
  (0 < x)%N →
  ∃ d rest, pretty_N_go x s = String d rest ∧ is_digit d = true.
Proof.
  revert s. induction (N.lt_wf_0 x) as [x _ IH]; intros s Hx.
  rewrite pretty_N_go_step by done.
  destruct (decide (x `div` 10 = 0)%N) as [Hq|Hq].
  - rewrite Hq, pretty_N_go_0. eexists _, _. split; [done|].
    apply is_digit_pretty_N_char.
  - apply IH; [by apply N.div_lt|by apply N.neq_0_lt_0].
Qed.

Lemma pretty_Z_digit_first (i : Z) :
  0 ≤ i → ∃ d rest, pretty i = String d rest ∧ is_digit d = true.
Proof.
  intros Hi. destruct i as [|p|p]; [by eexists _, _|..|lia].
  unfold pretty, pretty_Z, pretty, pretty_positive, pretty, pretty_N.
  rewrite decide_False by done. by apply pretty_N_go_digit_first.
Qed.

Lemma glob_match_star_suffix (s : string) :
  glob_match [GStar; GLit "."; GLit "p"; GLit "t"] (s +:+ TRAJ_EXTENSION) = true.
Proof.
  induction s as [|c s IH]; [done|].
  simpl in *. rewrite IH. by rewrite orb_true_r.
Qed.

Lemma fnmatch_trajectory_basename (i : Z) :
  0 ≤ i →
  fnmatch (trajectory_basename i) ("[0-9]*" +:+ TRAJ_EXTENSION) = true.
Proof.
  intros Hi. destruct (pretty_Z_digit_first i Hi) as (d & rest & Hp & Hd).
  unfold fnmatch, trajectory_basename. rewrite Hp.
  change (glob_tokens _ _)
    with [GClass false [("0", "9")]%char; GStar; GLit "."; GLit "p"; GLit "t"].
  change (String d rest +:+ TRAJ_EXTENSION) with (String d (rest +:+ TRAJ_EXTENSION)).
  change (glob_match (?t :: ?toks) (String d ?name))
    with (xorb false (in_class [("0", "9")%char] d)
          && glob_match [GStar; GLit "."; GLit "p"; GLit "t"] name).
  rewrite glob_match_star_suffix. unfold in_class, is_digit in *. simpl.
  by rewrite Hd.
Qed.

Lemma string_length_app (s1 s2 : string) :
  String.length (s1 +:+ s2) = (String.length s1 + String.length s2)%nat.
Proof.
  induction s1 as [|c s1 IH]; [done|].
  change (S (String.length (s1 +:+ s2)) = S (String.length s1 + String.length s2)).
  by rewrite IH.
Qed.

Lemma string_app_inj_r (s1 s2 e : string) : s1 +:+ e = s2 +:+ e → s1 = s2.
Proof.
  revert s2. induction s1 as [|c1 s1 IH]; intros [|c2 s2] Heq.
  - done.
  - apply (f_equal String.length) in Heq.
    rewrite !string_length_app in Heq. simpl in Heq. lia.
  - apply (f_equal String.length) in Heq.
    rewrite !string_length_app in Heq. simpl in Heq. lia.
  - change (String c1 (s1 +:+ e) = String c2 (s2 +:+ e)) in Heq.
    injection Heq as -> Heq. f_equal. by apply IH.
Qed.

Lemma trajectory_basename_inj (i j : Z) :
  trajectory_basename i = trajectory_basename j → i = j.
Proof.
  unfold trajectory_basename. intros H%string_app_inj_r. by apply (inj pretty).
Qed.

(** On a directory that holds trajectory files only, whatever their indices,
    the count is the number of files. *)
Lemma numeric_file_count_trajectories dir :
  (∀ name, is_Some (dir !! name) → ∃ i, 0 ≤ i ∧ name = trajectory_basename i) →
  numeric_file_count dir TRAJ_EXTENSION = Z.of_nat (size dir).
Proof.
  intros Hnames. unfold numeric_file_count, glob_numeric. f_equal. f_equal.
  apply map_filter_id. intros name x Hx. simpl.
  destruct (Hnames name) as (i & Hi & ->); [by eexists|].
  by rewrite fnmatch_trajectory_basename.
Qed.

(** C9. The count is the number of directory entries matched by the pattern
    [[0-9]*] followed by the extension: on the directory of the docstring,
    [7.pt], [11.pt] and [4.pt], it is 3, a cardinality and not a largest
    index; but a file named [7abc.pt], whose basename is not an integer, is
    counted as well, where the documented count is 0. *)
Theorem get_numeric_file_count_counts_digit_prefix :
  numeric_file_count dir_7_11_4 TRAJ_EXTENSION = 3
  ∧ documented_numeric_file_count dir_7_11_4 TRAJ_EXTENSION = 3
  ∧ numeric_file_count dir_7abc TRAJ_EXTENSION = 1
  ∧ documented_numeric_file_count dir_7abc TRAJ_EXTENSION = 0.
Proof. by vm_compute. Qed.

End FilesFacts.

(** ** The manager: loading trajectories *)

Section ManagerFacts.
Context {State : Type}.
Local Abbreviation Tensor := (list State).
Local Abbreviation Dir := (gmap string (list State)).
Implicit Types (self : SystemDataManager State) (dir : Dir)
  (randperm : Z → list Z).

(** *** Directories of consecutive trajectory files *)

(** The count that the manager reads is that of [file_utils] on the data
    directory of the storage. *)
Lemma get_trajectory_count_data_dir (storage_name : string)
    (fs : gmap string Dir) :
  (file_utils.get_trajectory_count storage_name fs).1
  = get_trajectory_count
      (file_utils.listdir (file_utils.path_join storage_name "data") fs).
Proof.
  unfold file_utils.get_trajectory_count.
  pose proof (listdir_data_dir (file_utils.path_join storage_name "data")
                storage_name fs) as Hls.
  pose proof (data_dir_path storage_name fs) as Hpath.
  destruct (file_utils.data_dir storage_name fs) as [d fs1]. simpl in *.
  subst d. unfold file_utils.get_numeric_file_count. by rewrite Hls.
Qed.

Lemma store_of_snoc (l : list Tensor) (t : Tensor) :
  store_of (l ++ [t])
  = <[file_utils.trajectory_basename (Z.of_nat (length l)) := t]> (store_of l).
Proof.
  unfold store_of. rewrite imap_app. simpl. rewrite Nat.add_0_r.
  apply list_to_map_snoc. rewrite fmap_imap.
  intros (j & x & Heq & Hj)%elem_of_lookup_imap. simpl in Heq.
  apply trajectory_basename_inj in Heq.
  apply lookup_lt_Some in Hj. lia.
Qed.

Lemma store_of_lookup (l : list Tensor) (i : Z) :
  0 ≤ i → store_of l !! file_utils.trajectory_basename i = l !! Z.to_nat i.
Proof.
  intros Hi. induction l as [|t l IH] using rev_ind.
  - by rewrite lookup_nil.
  - rewrite store_of_snoc. destruct (decide (i = Z.of_nat (length l))) as [->|Hne].
    + rewrite lookup_insert_eq, Nat2Z.id.
      by rewrite lookup_app_r, Nat.sub_diag by lia.
    + rewrite lookup_insert_ne by (intros ?%trajectory_basename_inj; lia).
      rewrite IH. destruct (decide (Z.to_nat i < length l)%nat).
      * by rewrite lookup_app_l by lia.
      * rewrite !lookup_ge_None_2; [done|rewrite length_app; simpl; lia|lia].
Qed.

Lemma store_of_names (l : list Tensor) (name : string) :
  is_Some (store_of l !! name) →
  ∃ i, 0 ≤ i < Z.of_nat (length l) ∧ name = file_utils.trajectory_basename i.
Proof.
  induction l as [|t l IH] using rev_ind; intros Hname.
  - by destruct Hname.
  - rewrite store_of_snoc in Hname. rewrite length_app. simpl.
    destruct (decide (file_utils.trajectory_basename (Z.of_nat (length l)) = name))
      as [<-|Hne].
    + exists (Z.of_nat (length l)). split; [lia|done].
    + rewrite lookup_insert_ne in Hname by done.
      destruct (IH Hname) as (i & Hi & ->). exists i. split; [lia|done].
Qed.

Lemma store_of_size (l : list Tensor) : size (store_of l) = length l.
Proof.
  induction l as [|t l IH] using rev_ind; [done|].
  rewrite store_of_snoc, map_size_insert_None, IH, length_app; [simpl; lia|].
  rewrite store_of_lookup by lia. apply lookup_ge_None_2. lia.
Qed.

Lemma get_trajectory_count_store_of (l : list Tensor) :
  get_trajectory_count (store_of l) = Z.of_nat (length l).
Proof.
  unfold get_trajectory_count.
  rewrite numeric_file_count_trajectories, store_of_size; [done|].
  intros name Hname. destruct (store_of_names l name Hname) as (i & Hi & ->).
  exists i. split; [lia|done].
Qed.

Lemma holds_range_store_of (l : list Tensor) (lo hi : Z) :
  0 ≤ lo → hi ≤ Z.of_nat (length l) → holds_range (store_of l) lo hi.
Proof.
  intros Hlo Hhi i Hi. rewrite store_of_lookup by lia.
  apply lookup_lt_is_Some_2. lia.
Qed.

Lemma store_of_sliceable (cfg : DataConfig.t) (l : list Tensor) (i : Z) t :
  Forall (sliceable cfg) l → 0 ≤ i →
  store_of l !! file_utils.trajectory_basename i = Some t → sliceable cfg t.
Proof.
  intros Hall Hi. rewrite store_of_lookup by done. intros Ht.
  by eapply Forall_lookup_1.
Qed.

Lemma load_all_loaded dir (selection : list Z) :
  (∀ i, i ∈ selection → is_Some (dir !! file_utils.trajectory_basename i)) →
  ∃ data, load_all dir selection = Ok data ∧ loaded_from dir selection data.
Proof.
  induction selection as [|i rest IH]; intros Hall.
  - exists []. split; [done|constructor].
  - destruct (Hall i) as [trajectory Hi]; [by left|].
    destruct IH as (data & Hdata & Hloaded).
    { intros j Hj. apply Hall. by right. }
    exists (trajectory :: data). simpl. unfold torch_load.
    rewrite Hi. simpl. rewrite Hdata. simpl. split; [done|by constructor].
Qed.

Lemma loaded_from_length dir selection data :
  loaded_from dir selection data → length data = length selection.
Proof. intros H. symmetry. by eapply Forall2_length. Qed.

Lemma shifted_permutation randperm (N_begin n : Z) :
  randperm n ≡ₚ seqZ 0 n →
  ((λ i, i + N_begin) <$> randperm n) ≡ₚ seqZ N_begin n.
Proof.
  intros Hperm. rewrite Hperm.
  replace (seqZ N_begin n) with (seqZ (N_begin + 0) n) by (f_equal; lia).
  rewrite <-fmap_add_seqZ.
  erewrite list_fmap_ext; [done|]. intros ???. simpl. lia.
Qed.

Lemma get_selection_spec randperm self (N_begin N_end N_requested : Z) :
  N_begin ≤ N_end → N_end ≤ n_on_disk self → 0 ≤ N_requested →
  randperm (N_end - N_begin) ≡ₚ seqZ 0 (N_end - N_begin) →
  let selection :=
    take (Z.to_nat N_requested) ((λ i, i + N_begin) <$> randperm (N_end - N_begin)) in
  get_selection randperm self N_begin N_end N_requested = Ok selection
  ∧ Z.of_nat (length selection) = Z.min N_requested (N_end - N_begin)
  ∧ NoDup selection
  ∧ ∀ i, i ∈ selection → N_begin ≤ i < N_end.
Proof.
  intros Hbe Hend Hreq Hperm selection.
  pose proof (shifted_permutation randperm N_begin _ Hperm) as Hshift.
  split_and!.
  - unfold get_selection, torch_randperm.
    rewrite !bool_decide_eq_true_2 by lia. simpl.
    by rewrite py_slice_take.
  - unfold selection. rewrite length_take, Hshift, length_seqZ. lia.
  - unfold selection. eapply sublist_NoDup; [|apply sublist_take].
    rewrite Hshift. apply NoDup_seqZ.
  - intros i Hi. unfold selection in Hi.
    apply elem_of_take in Hi as (j & Hi & _).
    apply list_elem_of_lookup_2 in Hi. rewrite Hshift in Hi.
    apply elem_of_seqZ in Hi. lia.
Qed.


(** *** Building and extending trajectory sets *)

Lemma add_each_sliceable (l : list Tensor) (ds : TrajectorySliceDataset State) :
  Forall (λ t, t_skip ds + t_prediction ds ≤ Z.of_nat (length t)) l →
  length (in_slices ds) = length (out_slices ds) →
  ∃ ds' ins outs,
    add_each l ds = (Ok (), ds')
    ∧ t_skip ds' = t_skip ds
    ∧ t_history ds' = t_history ds
    ∧ t_prediction ds' = t_prediction ds
    ∧ in_slices ds' = in_slices ds ++ ins
    ∧ out_slices ds' = out_slices ds ++ outs
    ∧ length ins = length outs.
Proof.
  revert ds. induction l as [|t l IH]; intros ds Hall Hpair.
  - exists ds, [], []. by rewrite !app_nil_r.
  - apply Forall_cons in Hall as [Ht Hall]. simpl.
    rewrite add_sliced_trajectory_long by done. cbv zeta.
    set (ds1 := mkSlicer _ _ _ _ _).
    destruct (IH ds1) as (ds' & ins & outs & Hadd & H1 & H2 & H3 & Hin & Hout & Hlen).
    { done. }
    { unfold ds1. simpl. rewrite !length_app, !length_fmap. lia. }
    eexists ds', _, _. rewrite Hadd, Hin, Hout. unfold ds1. simpl.
    rewrite <-!app_assoc. split_and!; try done.
    rewrite !length_app, !length_fmap. lia.
Qed.

Lemma make_trajectory_set_sliceable self (l : list Tensor) :
  DataConfig.t_history (config self) ≤ DataConfig.t_skip (config self) + 1 →
  Forall (sliceable (config self)) l →
  ∃ ds, make_trajectory_set self l = Ok (mkTrajectorySet ds l)
        ∧ slicer_of (config self) ds.
Proof.
  intros Hcfg Hall. unfold make_trajectory_set, TrajectorySliceDataset_init.
  rewrite bool_decide_eq_true_2 by done.
  set (ds0 := mkSlicer _ _ _ _ _).
  destruct (add_each_sliceable l ds0) as (ds & ins & outs & -> & H1 & H2 & H3 & Hin & Hout & Hlen);
    [done..|].
  exists ds. split; [done|]. unfold slicer_of.
  rewrite H1, H2, H3, Hin, Hout. simpl. by rewrite Hlen.
Qed.

Lemma extend_set_sliceable (cfg : DataConfig.t) (set : TrajectorySet State)
    (l : list Tensor) :
  slicer_of cfg (slices set) →
  Forall (sliceable cfg) l →
  ∃ ds ins outs,
    extend_set set l = (Ok (), mkTrajectorySet ds (trajectories set ++ l))
    ∧ slicer_of cfg ds
    ∧ in_slices ds = in_slices (slices set) ++ ins
    ∧ out_slices ds = out_slices (slices set) ++ outs.
Proof.
  intros (H1 & H2 & H3 & Hpair) Hall. unfold extend_set.
  destruct (add_each_sliceable l (slices set))
    as (ds & ins & outs & -> & E1 & E2 & E3 & Hin & Hout & Hlen).
  { by rewrite H1, H3. }
  { done. }
  exists ds, ins, outs. split_and!; try done.
  unfold slicer_of. rewrite E1, E2, E3, Hin, Hout, !length_app.
  split_and!; try done. lia.
Qed.

Lemma cut3_take_drop {A} (l : list A) (N_train N_valid : Z) :
  0 ≤ N_train → 0 ≤ N_valid →
  cut3 l N_train N_valid
  = (take (Z.to_nat N_train) l,
     take (Z.to_nat N_valid) (drop (Z.to_nat N_train) l),
     drop (Z.to_nat N_valid) (drop (Z.to_nat N_train) l)).
Proof.
  intros Ht Hv. unfold cut3.
  by rewrite !py_slice_take, !py_slice_drop by done.
Qed.

Lemma loaded_from_sliceable (cfg : DataConfig.t) dir selection data (lo hi : Z) :
  loaded_from dir selection data →
  (∀ i, i ∈ selection → lo ≤ i < hi) →
  (∀ i t, lo ≤ i < hi → dir !! file_utils.trajectory_basename i = Some t →
          sliceable cfg t) →
  Forall (sliceable cfg) data.
Proof.
  intros Hload Hin Hlong. induction Hload as [|i t sel data Hi _ IH]; [done|].
  constructor.
  - eapply Hlong; [|done]. apply Hin. by left.
  - apply IH. intros j Hj. apply Hin. by right.
Qed.

(** *** The first split *)

Lemma initial_sizes_bounds (cfg : DataConfig.t) (N : Z) :
  0 ≤ N →
  (0 <= DataConfig.train_fraction cfg <= 1)%Q →
  (0 <= DataConfig.valid_fraction cfg <= 1)%Q →
  (0 <= DataConfig.test_fraction cfg <= 1)%Q →
  let sizes := initial_sizes cfg N in
  let N_train := sizes.1.1 in
  let N_valid := sizes.1.2 in
  let N_test := sizes.2 in
  0 ≤ N_train ≤ N ∧ 0 ≤ N_valid ≤ N ∧ N_test ≤ N
  ∧ N_test ≤ N - N_train - N_valid
  ∧ (N_test < 0 → N_test = N - N_train - N_valid).
Proof.
  intros HN [Ha1 Ha2] [Hb1 Hb2] [Hc1 Hc2]. unfold initial_sizes. simpl.
  pose proof (round_fraction_bounds N _ HN Ha1 Ha2).
  pose proof (round_fraction_bounds N _ HN Hb1 Hb2).
  pose proof (round_fraction_bounds N _ HN Hc1 Hc2).
  lia.
Qed.

(** The run of the first call: the selection, the files loaded and the
    three sets built from the cut. *)
Lemma initial_split_blocks randperm dir self :
  let cfg := config self in
  let N := n_on_disk self in
  let sizes := initial_sizes cfg N in
  let N_train := sizes.1.1 in
  let N_valid := sizes.1.2 in
  let N_test := sizes.2 in
  let nt := Z.to_nat N_train in
  let nv := Z.to_nat N_valid in
  train_set self = None →
  0 ≤ N →
  (0 <= DataConfig.train_fraction cfg <= 1)%Q →
  (0 <= DataConfig.valid_fraction cfg <= 1)%Q →
  (0 <= DataConfig.test_fraction cfg <= 1)%Q →
  randperm N ≡ₚ seqZ 0 N →
  holds_range dir 0 N →
  DataConfig.t_history cfg ≤ DataConfig.t_skip cfg + 1 →
  (∀ i t, 0 ≤ i < N → dir !! file_utils.trajectory_basename i = Some t →
          sliceable cfg t) →
  ∃ (data : list Tensor) (ds1 ds2 ds3 : TrajectorySliceDataset State),
    let selection := take (Z.to_nat (N_train + N_valid + N_test)) (randperm N) in
    let train := mkTrajectorySet ds1 (take nt data) in
    let valid := mkTrajectorySet ds2 (take nv (drop nt data)) in
    let test := mkTrajectorySet ds3 (drop nv (drop nt data)) in
    get_trajectory_split randperm dir self
    = (Ok (train, valid, test),
       mkManager cfg N (Some train) (Some valid) (Some test))
    ∧ loaded_from dir selection data
    ∧ Z.of_nat (length selection) = N_train + N_valid + N_test
    ∧ NoDup selection
    ∧ (∀ i, i ∈ selection → 0 ≤ i < N)
    ∧ slicer_of cfg ds1 ∧ slicer_of cfg ds2 ∧ slicer_of cfg ds3
    ∧ 0 ≤ N_train ≤ N ∧ 0 ≤ N_valid ≤ N
    ∧ N_test ≤ N - N_train - N_valid
    ∧ (N_test < 0 → N_test = N - N_train - N_valid).
Proof.
  intros cfg N sizes N_train N_valid N_test nt nv Hnone HN Hft Hfv Hfs Hperm
    Hdir Hcfg Hlong.
  destruct (initial_sizes_bounds cfg N HN Hft Hfv Hfs)
    as (Htr & Hva & Hte & Hcl & Hneg).
  fold sizes N_train N_valid N_test in Htr, Hva, Hte, Hcl, Hneg.
  set (N_tot := N_train + N_test + N_valid).
  assert (0 ≤ N_tot ≤ N) as Htot by (unfold N_tot; lia).
  destruct (get_selection_spec randperm self 0 N N_tot)
    as (Hsel & Hlen & Hnd & Hin); [lia| fold N; lia |lia| by rewrite Z.sub_0_r |].
  rewrite Z.sub_0_r in Hsel, Hlen, Hnd, Hin. fold N in Hsel, Hlen, Hnd, Hin.
  assert ((λ i, i + 0) <$> randperm N = randperm N) as Hid.
  { rewrite <-(list_fmap_id (randperm N)) at 2.
    apply list_fmap_ext. intros ???. simpl. lia. }
  rewrite Hid in Hsel, Hlen, Hnd, Hin.
  replace (N_train + N_valid + N_test) with N_tot by (unfold N_tot; lia).
  set (selection := take (Z.to_nat N_tot) (randperm N)) in *.
  destruct (load_all_loaded dir selection) as (data & Hdata & Hloaded).
  { intros i Hi. apply Hdir. by apply Hin. }
  assert (Forall (sliceable cfg) data) as Hdata_long
    by (eapply loaded_from_sliceable; eauto).
  destruct (make_trajectory_set_sliceable self (take nt data))
    as (ds1 & Hmk1 & Hs1); [done|by apply Forall_take|].
  destruct (make_trajectory_set_sliceable self (take nv (drop nt data)))
    as (ds2 & Hmk2 & Hs2); [done|by apply Forall_take, Forall_drop|].
  destruct (make_trajectory_set_sliceable self (drop nv (drop nt data)))
    as (ds3 & Hmk3 & Hs3); [done|by apply Forall_drop, Forall_drop|].
  exists data, ds1, ds2, ds3. cbv zeta. split_and!; try done; try lia.
  unfold get_trajectory_split. rewrite bool_decide_eq_true_2 by done.
  unfold initial_split.
  change (initial_sizes (config self) (n_on_disk self))
    with (N_train, N_valid, N_test).
  cbv zeta beta iota. fold N N_tot.
  unfold get_trajectories. rewrite Hsel. cbn [obind]. rewrite Hdata.
  rewrite cut3_take_drop by lia. fold nt nv.
  unfold make_trajectory_set in *. cbn [config] in *.
  rewrite Hmk1. rewrite Hmk2. rewrite Hmk3. reflexivity.
Qed.


(** *** Growth of the split *)

(** Once a split exists and the configuration is not truthy in
    [dynamic_updates_from], a call neither reads the directory nor changes
    the manager. *)
Lemma get_trajectory_split_static randperm dir self :
  train_set self ≠ None →
  truthy (DataConfig.dynamic_updates_from (config self)) = false →
  get_trajectory_split randperm dir self = (return_sets self, self).
Proof.
  intros Hsome Hfalse. unfold get_trajectory_split.
  rewrite bool_decide_eq_false_2 by done. by rewrite Hfalse.
Qed.

(** In dynamic mode with a non-zero threshold, a call that finds the count
    unchanged changes nothing. *)
Lemma get_trajectory_split_unchanged randperm dir self :
  train_set self ≠ None →
  get_trajectory_count dir = n_on_disk self →
  get_trajectory_split randperm dir self = (return_sets self, self).
Proof.
  intros Hsome Hsame. unfold get_trajectory_split.
  rewrite bool_decide_eq_false_2 by done.
  destruct (truthy _); [|done].
  unfold update_split. by rewrite bool_decide_eq_false_2 by (intros ?; done).
Qed.

(** The run of a call that finds the directory grown: the selection, the
    files loaded and the three sets extended by the cut. *)
Lemma update_split_blocks randperm dir self
    (train valid test : TrajectorySet State) :
  let cfg := config self in
  let old := n_on_disk self in
  let new := get_trajectory_count dir in
  let Δ := new - old in
  let sizes := update_sizes cfg Δ in
  let N_train := sizes.1.1 in
  let N_valid := sizes.1.2 in
  let N_test := sizes.2 in
  let nt := Z.to_nat N_train in
  let nv := Z.to_nat N_valid in
  train_set self = Some train →
  valid_set self = Some valid →
  test_set self = Some test →
  truthy (DataConfig.dynamic_updates_from cfg) = true →
  0 ≤ old → 0 < Δ →
  (0 <= DataConfig.train_fraction cfg <= 1)%Q →
  (0 <= DataConfig.valid_fraction cfg <= 1)%Q →
  (0 <= DataConfig.test_fraction cfg <= 1)%Q →
  randperm Δ ≡ₚ seqZ 0 Δ →
  holds_range dir old new →
  slicer_of cfg (slices train) →
  slicer_of cfg (slices valid) →
  slicer_of cfg (slices test) →
  (∀ i t, old ≤ i < new → dir !! file_utils.trajectory_basename i = Some t →
          sliceable cfg t) →
  ∃ (data : list Tensor) (ds1 ds2 ds3 : TrajectorySliceDataset State),
    let selection :=
      take (Z.to_nat (N_train + N_valid + N_test)) ((λ i, i + old) <$> randperm Δ) in
    let train' := mkTrajectorySet ds1 (trajectories train ++ take nt data) in
    let valid' := mkTrajectorySet ds2 (trajectories valid ++ take nv (drop nt data)) in
    let test' := mkTrajectorySet ds3 (trajectories test ++ drop nv (drop nt data)) in
    get_trajectory_split randperm dir self
    = (Ok (train', valid', test'),
       mkManager cfg new (Some train') (Some valid') (Some test'))
    ∧ loaded_from dir selection data
    ∧ Z.of_nat (length selection) = Z.min Δ (N_train + N_valid + N_test)
    ∧ NoDup selection
    ∧ (∀ i, i ∈ selection → old ≤ i < new)
    ∧ slicer_of cfg ds1 ∧ slicer_of cfg ds2 ∧ slicer_of cfg ds3
    ∧ in_slices (slices train) `prefix_of` in_slices ds1
    ∧ out_slices (slices train) `prefix_of` out_slices ds1
    ∧ in_slices (slices valid) `prefix_of` in_slices ds2
    ∧ out_slices (slices valid) `prefix_of` out_slices ds2
    ∧ in_slices (slices test) `prefix_of` in_slices ds3
    ∧ out_slices (slices test) `prefix_of` out_slices ds3
    ∧ 0 ≤ N_train ≤ Δ ∧ 0 ≤ N_valid ≤ Δ ∧ 0 ≤ N_test ≤ Δ.
Proof.
  intros cfg old new Δ sizes N_train N_valid N_test nt nv Htrain Hvalid Htest
    Hdyn Hold HΔ [Ha1 Ha2] [Hb1 Hb2] [Hc1 Hc2] Hperm Hdir Hs1 Hs2 Hs3 Hlong.
  assert (0 ≤ N_train ≤ Δ ∧ 0 ≤ N_valid ≤ Δ ∧ 0 ≤ N_test ≤ Δ) as (Htr & Hva & Hte).
  { unfold N_train, N_valid, N_test, sizes, update_sizes. simpl.
    split_and!; apply round_fraction_bounds; done || lia. }
  set (N_tot := N_train + N_test + N_valid).
  set (self1 := mkManager cfg new (train_set self) (valid_set self) (test_set self)).
  destruct (get_selection_spec randperm self1 old new N_tot)
    as (Hsel & Hlen & Hnd & Hin); [lia|done|unfold N_tot; lia|done|].
  fold Δ in Hsel, Hlen, Hnd, Hin.
  replace (N_train + N_valid + N_test) with N_tot by (unfold N_tot; lia).
  set (selection := take (Z.to_nat N_tot) ((λ i, i + old) <$> randperm Δ)) in *.
  destruct (load_all_loaded dir selection) as (data & Hdata & Hloaded).
  { intros i Hi. apply Hdir. by apply Hin. }
  assert (Forall (sliceable cfg) data) as Hdata_long
    by (eapply loaded_from_sliceable; eauto).
  destruct (extend_set_sliceable cfg train (take nt data))
    as (ds1 & ins1 & outs1 & Hex1 & Hn1 & Hin1 & Hout1); [done|by apply Forall_take|].
  destruct (extend_set_sliceable cfg valid (take nv (drop nt data)))
    as (ds2 & ins2 & outs2 & Hex2 & Hn2 & Hin2 & Hout2);
    [done|by apply Forall_take, Forall_drop|].
  destruct (extend_set_sliceable cfg test (drop nv (drop nt data)))
    as (ds3 & ins3 & outs3 & Hex3 & Hn3 & Hin3 & Hout3);
    [done|by apply Forall_drop, Forall_drop|].
  exists data, ds1, ds2, ds3. cbv zeta. split_and!; try done; try lia.
  - unfold get_trajectory_split.
    rewrite bool_decide_eq_false_2 by (by rewrite Htrain).
    fold cfg. rewrite Hdyn. unfold update_split. fold new old cfg.
    rewrite bool_decide_eq_true_2 by lia.
    change (update_sizes _ (new - old)) with (N_train, N_valid, N_test).
    cbv zeta beta iota. fold N_tot self1.
    unfold get_trajectories. rewrite Hsel. cbn [obind]. rewrite Hdata.
    rewrite cut3_take_drop by lia. fold nt nv.
    cbn [train_set valid_set test_set self1 config].
    rewrite Htrain, Hvalid, Htest. rewrite Hex1, Hex2, Hex3. reflexivity.
  - by exists ins1.
  - by exists outs1.
  - by exists ins2.
  - by exists outs2.
  - by exists ins3.
  - by exists outs3.
Qed.


(** *** The assignment of trajectories to sets never changes *)

Lemma regroup_blocks {A} (a b c x y z : list A) :
  (a ++ x) ++ (b ++ y) ++ (c ++ z) ≡ₚ (a ++ b ++ c) ++ (x ++ y ++ z).
Proof.
  rewrite <-!(assoc_L (++)). f_equiv. rewrite !(assoc_L (++)).
  rewrite (comm (++) x b). rewrite <-!(assoc_L (++)). f_equiv.
  rewrite !(assoc_L (++)). rewrite (comm (++) (x ++ y) c).
  by rewrite <-!(assoc_L (++)).
Qed.

(** The first call establishes a split. *)
Lemma get_trajectory_split_establishes randperm dir self :
  let cfg := config self in
  let N := n_on_disk self in
  train_set self = None →
  0 ≤ N →
  (0 <= DataConfig.train_fraction cfg <= 1)%Q →
  (0 <= DataConfig.valid_fraction cfg <= 1)%Q →
  (0 <= DataConfig.test_fraction cfg <= 1)%Q →
  randperm N ≡ₚ seqZ 0 N →
  holds_range dir 0 N →
  DataConfig.t_history cfg ≤ DataConfig.t_skip cfg + 1 →
  (∀ i t, 0 ≤ i < N → dir !! file_utils.trajectory_basename i = Some t →
          sliceable cfg t) →
  ∃ i_train i_valid i_test,
    split_of dir (get_trajectory_split randperm dir self).2 i_train i_valid i_test.
Proof.
  intros cfg N Hnone HN Hft Hfv Hfs Hperm Hdir Hcfg Hlong.
  destruct (initial_split_blocks randperm dir self)
    as (data & ds1 & ds2 & ds3 & Hrun & Hloaded & Hlen & Hnd & Hin & S1 & S2 & S3
        & _); [done..|].
  cbv zeta in Hrun. rewrite Hrun. clear Hrun.
  set (nt := Z.to_nat (initial_sizes (config self) (n_on_disk self)).1.1) in *.
  set (nv := Z.to_nat (initial_sizes (config self) (n_on_disk self)).1.2) in *.
  set (selection := take _ (randperm _)) in *.
  assert (take nt selection ++ take nv (drop nt selection)
          ++ drop nv (drop nt selection) = selection) as Hcat
    by (by rewrite !take_drop).
  exists (take nt selection), (take nv (drop nt selection)),
    (drop nv (drop nt selection)).
  eexists _, _, _. simpl. split_and!; try done.
  - by apply Forall2_take.
  - by apply Forall2_take, Forall2_drop.
  - by apply Forall2_drop, Forall2_drop.
  - by rewrite Hcat.
  - by rewrite Hcat.
Qed.

(** In dynamic mode with a non-zero threshold, a later call on a directory
    that has kept its files and may have gained some extends each of the
    three index lists and keeps the split: a trajectory stays in the set it
    was put in, and no index is ever in two sets. *)
Lemma get_trajectory_split_preserves randperm dir self
    (i_train i_valid i_test : list Z) :
  let cfg := config self in
  let old := n_on_disk self in
  let new := get_trajectory_count dir in
  split_of dir self i_train i_valid i_test →
  truthy (DataConfig.dynamic_updates_from cfg) = true →
  0 ≤ old → old ≤ new →
  (0 <= DataConfig.train_fraction cfg <= 1)%Q →
  (0 <= DataConfig.valid_fraction cfg <= 1)%Q →
  (0 <= DataConfig.test_fraction cfg <= 1)%Q →
  randperm (new - old) ≡ₚ seqZ 0 (new - old) →
  holds_range dir old new →
  (∀ i t, old ≤ i < new → dir !! file_utils.trajectory_basename i = Some t →
          sliceable cfg t) →
  ∃ j_train j_valid j_test,
    i_train `prefix_of` j_train
    ∧ i_valid `prefix_of` j_valid
    ∧ i_test `prefix_of` j_test
    ∧ split_of dir (get_trajectory_split randperm dir self).2 j_train j_valid j_test.
Proof.
  intros cfg old new Hsplit Hdyn Hold Hgrow Hft Hfv Hfs Hperm Hdir Hlong.
  destruct (decide (new = old)) as [Hsame|Hne].
  - exists i_train, i_valid, i_test. split_and!; [done..|].
    rewrite get_trajectory_split_unchanged; [done| |done].
    destruct Hsplit as (train & ? & ? & -> & _). done.
  - pose proof Hsplit as (train & valid & test & Htrain & Hvalid & Htest
                          & L1 & L2 & L3 & S1 & S2 & S3 & Hnd & Hin).
    assert (0 < new - old) as HΔ by lia.
    destruct (update_split_blocks randperm dir self train valid test)
      as (data & ds1 & ds2 & ds3 & Hrun & Hloaded & Hlen & Hnd' & Hin'
          & S1' & S2' & S3' & _); [done..|].
    cbv zeta in Hrun. rewrite Hrun. clear Hrun.
    set (nt := Z.to_nat (update_sizes (config self)
                           (get_trajectory_count dir - n_on_disk self)).1.1) in *.
    set (nv := Z.to_nat (update_sizes (config self)
                           (get_trajectory_count dir - n_on_disk self)).1.2) in *.
    set (selection := take _ (_ <$> randperm _)) in *.
    assert (take nt selection ++ take nv (drop nt selection)
            ++ drop nv (drop nt selection) = selection) as Hcat
      by (by rewrite !take_drop).
    exists (i_train ++ take nt selection), (i_valid ++ take nv (drop nt selection)),
      (i_test ++ drop nv (drop nt selection)).
    split_and!; [by eexists..|].
    eexists _, _, _. simpl. split_and!; try done.
    + apply Forall2_app; [done|by apply Forall2_take].
    + apply Forall2_app; [done|by apply Forall2_take, Forall2_drop].
    + apply Forall2_app; [done|by apply Forall2_drop, Forall2_drop].
    + rewrite regroup_blocks, Hcat. apply NoDup_app. split_and!; [done| |done].
      intros i Hi Hi'. specialize (Hin i Hi). specialize (Hin' i Hi'). lia.
    + intros i Hi. rewrite regroup_blocks, Hcat in Hi.
      apply elem_of_app in Hi as [Hi|Hi].
      * specialize (Hin i Hi). fold old new. lia.
      * specialize (Hin' i Hi). lia.
Qed.

End ManagerFacts.

(** ** The manager: generation *)

Section GenerateFacts.
Context {State : Type}.
Local Abbreviation Tensor := (list State).
Local Abbreviation Dir := (gmap string (list State)).
Context (sample : nat → Z → Z → Tensor) (external : nat → Dir → Dir).
Context (cfg : DataConfig.t) (n_pop traj_len : Z).
Implicit Types (st : generate_state (State := State)) (dir : Dir).

Lemma save_each_ok (traj_i : list Tensor) (c : Z) (indices : list Z) dir
    (saved : list Z) :
  Forall (λ i, 0 ≤ i < Z.of_nat (length traj_i)) indices →
  ∃ dir', save_each traj_i c indices dir saved
          = (Ok (), (dir', saved ++ (Z.add c <$> indices)))
          ∧ (indices = [] → dir' = dir).
Proof.
  revert dir saved. induction indices as [|i rest IH]; intros dir saved Hall.
  - exists dir. simpl. by rewrite app_nil_r.
  - apply Forall_cons in Hall as [Hi Hall]. simpl. unfold py_getitem.
    rewrite (bool_decide_eq_false_2 (i < 0)) by lia.
    rewrite bool_decide_eq_true_2 by lia.
    destruct (lookup_lt_is_Some_2 traj_i (Z.to_nat i)) as [t ->]; [lia|].
    destruct (IH (torch_save t (c + i) dir) (saved ++ [c + i]) Hall)
      as (dir' & -> & _).
    exists dir'. by rewrite <-app_assoc.
Qed.

Lemma get_trajectory_count_nonneg dir : 0 ≤ get_trajectory_count dir.
Proof. unfold get_trajectory_count, file_utils.numeric_file_count. lia. Qed.

Lemma generate_body_spec (k : nat) st :
  is_Some (DataConfig.generation_config cfg) →
  1 ≤ traj_len →
  head_inv n_pop st →
  n_generated st < n_pop →
  let dir := external k (gen_dir st) in
  let c := get_trajectory_count dir in
  let n_set' := Z.min (n_set st) (n_pop - c) in
  let traj_i := sample k traj_len <$> range 0 (n_set st) in
  let dir' := (save_each traj_i c (range 0 n_set') dir (saved st)).2.1 in
  let st' := mkGenerate dir' c n_set' (saved st ++ seqZ c n_set') in
  (c = n_pop →
     generate_body sample external cfg n_pop traj_len k st
     = (Ok Break, mkGenerate dir c (n_set st) (saved st)))
  ∧ (c ≠ n_pop →
     generate_body sample external cfg n_pop traj_len k st = (Ok Continue, st')
     ∧ head_inv n_pop st'
     ∧ (n_pop < c → dir' = dir)).
Proof.
  intros [gcfg Hg] HT (Hset & Hcount & Hn0 & Hsaved) Hlt dir c n_set' traj_i
    dir' st'.
  specialize (Hset Hlt).
  assert (n_set' = Z.min (n_set st) (n_pop - c)) as Hdef by done.
  assert (generate_trajectory_set sample cfg k (n_set st) traj_len
          = Ok traj_i) as Hgen.
  { unfold generate_trajectory_set.
    rewrite !bool_decide_eq_true_2 by lia. by rewrite Hg. }
  pose proof (get_trajectory_count_nonneg dir) as Hc0. fold c in Hc0.
  split; intros Hc; unfold generate_body; rewrite Hgen; fold dir c.
  - by rewrite bool_decide_eq_true_2.
  - rewrite bool_decide_eq_false_2 by done. fold n_set'.
    destruct (save_each_ok traj_i c (range 0 n_set') dir (saved st))
      as (dir1 & Hsave & Hnil).
    { apply Forall_forall. intros i Hi. unfold range in Hi.
      apply elem_of_seqZ in Hi. unfold traj_i, range.
      rewrite length_fmap, length_seqZ. lia. }
    assert (dir' = dir1) as Hdir' by (unfold dir'; by rewrite Hsave).
    rewrite Hsave. unfold range. rewrite fmap_add_seqZ, Z.add_0_r, Z.sub_0_r.
    unfold st'. rewrite Hdir'. split; [done|]. split.
    + unfold head_inv. simpl. split_and!.
      * lia.
      * destruct (decide (c < n_pop)); [by left|right].
        rewrite Hnil; [done|]. unfold range. apply seqZ_nil. lia.
      * done.
      * intros i [Hi|Hi]%elem_of_app; [by apply Hsaved|].
        apply elem_of_seqZ in Hi. lia.
    + intros Hgt. apply Hnil. unfold range. apply seqZ_nil. lia.
Qed.

Lemma save_each_store (traj_i l : list Tensor) (j k : nat) (saved : list Z) :
  (j + k ≤ length traj_i)%nat →
  save_each traj_i (Z.of_nat (length l)) (seqZ (Z.of_nat j) (Z.of_nat k))
    (store_of (l ++ take j traj_i)) saved
  = (Ok (),
     (store_of (l ++ take (j + k) traj_i),
      saved ++ seqZ (Z.of_nat (length l) + Z.of_nat j) (Z.of_nat k))).
Proof.
  revert j saved. induction k as [|k IH]; intros j saved Hjk.
  - rewrite Nat.add_0_r. simpl. by rewrite app_nil_r.
  - rewrite (seqZ_cons _ (Z.of_nat (S k))) by lia. simpl. unfold py_getitem.
    rewrite (bool_decide_eq_false_2 (Z.of_nat j < 0)) by lia.
    rewrite bool_decide_eq_true_2 by lia. rewrite Nat2Z.id.
    destruct (lookup_lt_is_Some_2 traj_i j) as [t Ht]; [lia|]. rewrite Ht.
    replace (Z.succ (Z.of_nat j)) with (Z.of_nat (S j)) by lia.
    replace (Z.pred (Z.of_nat (S k))) with (Z.of_nat k) by lia.
    unfold torch_save.
    replace (Z.of_nat (length l) + Z.of_nat j)
      with (Z.of_nat (length (l ++ take j traj_i)))
      by (rewrite length_app, length_take; lia).
    rewrite <-store_of_snoc, <-app_assoc, <-take_S_r by done.
    rewrite IH by lia. rewrite <-app_assoc. simpl.
    replace (j + S k)%nat with (S j + k)%nat by lia.
    repeat f_equal. rewrite (seqZ_cons _ (Z.of_nat (S k))) by lia.
    rewrite length_app, length_take. repeat f_equal; lia.
Qed.

Context (gcfg : DataGenerationConfig.t).
Context (Hgcfg : DataConfig.generation_config cfg = Some gcfg).
Context (Hn_pop : n_pop = DataGenerationConfig.n_pop gcfg).
Context (Htraj_len : traj_len = DataGenerationConfig.traj_len gcfg).
Context (Hlen : 1 ≤ traj_len).

Lemma loop_head_inv dir (k : nat) st :
  loop_head sample external cfg n_pop traj_len dir k st → head_inv n_pop st.
Proof.
  induction 1 as [|k st st' Hhead IH Hlt Hbody].
  - unfold head_inv. simpl. split_and!; [lia|by right| |by intros i ?%elem_of_nil].
    apply get_trajectory_count_nonneg.
  - destruct (generate_body_spec k st) as [Hbreak Hcont]; [by eexists|done..|].
    destruct (decide (get_trajectory_count (external k (gen_dir st)) = n_pop))
      as [Hc|Hc].
    + rewrite Hbreak in Hbody by done. discriminate.
    + destruct (Hcont Hc) as (Hb & Hinv & _). rewrite Hb in Hbody.
      by injection Hbody as <-.
Qed.

Lemma generate_from_head dir (k : nat) st (fuel : nat) :
  loop_head sample external cfg n_pop traj_len dir k st →
  generate (k + fuel) sample external cfg dir
  = generate_loop fuel sample external cfg n_pop traj_len k st.
Proof.
  intros Hhead. revert fuel.
  induction Hhead as [|k st st' Hhead IH Hlt Hbody]; intros fuel.
  - unfold generate. rewrite Hgcfg. by rewrite <-Hn_pop, <-Htraj_len.
  - replace (S k + fuel)%nat with (k + S fuel)%nat by lia. rewrite IH.
    simpl. rewrite bool_decide_eq_true_2 by done. by rewrite Hbody.
Qed.

Lemma generate_loop_exit (fuel k : nat) st r st' :
  head_inv n_pop st →
  generate_loop fuel sample external cfg n_pop traj_len k st = Some (r, st') →
  r = Ok ()
  ∧ n_pop ≤ n_generated st'
  ∧ n_generated st' = get_trajectory_count (gen_dir st')
  ∧ ∀ i, i ∈ saved st' → 0 ≤ i < n_pop.
Proof.
  revert k st. induction fuel as [|fuel IH]; intros k st Hinv Hrun; [done|].
  simpl in Hrun. case_bool_decide as Hlt.
  - destruct (generate_body_spec k st) as [Hbreak Hcont]; [by eexists|done..|].
    destruct (decide (get_trajectory_count (external k (gen_dir st)) = n_pop))
      as [Hc|Hc].
    + rewrite Hbreak in Hrun by done. injection Hrun as <- <-. simpl.
      destruct Hinv as (_ & _ & _ & Hsaved). split_and!; [done|lia|done..].
    + destruct (Hcont Hc) as (Hb & Hinv' & _). rewrite Hb in Hrun.
      by eapply IH.
  - injection Hrun as <- <-. destruct Hinv as (_ & [?|?] & _ & Hsaved); [lia|].
    split_and!; [done|lia|done..].
Qed.

(** Alone on a directory of consecutive trajectory files, the loop ends. *)
Lemma generate_loop_alone (m k : nat) (l : list Tensor) st :
  (∀ k dir, external k dir = dir) →
  gen_dir st = store_of l →
  head_inv n_pop st →
  (n_generated st < n_pop → Z.of_nat (length l) ≤ n_pop) →
  (Z.to_nat (n_pop - Z.of_nat (length l)) ≤ m)%nat →
  ∃ (fuel : nat) st' (news : list Tensor),
    generate_loop fuel sample external cfg n_pop traj_len k st = Some (Ok (), st')
    ∧ gen_dir st' = store_of (l ++ news)
    ∧ Z.of_nat (length (l ++ news)) = Z.max (Z.of_nat (length l)) n_pop
    ∧ saved st' = saved st ++ seqZ (Z.of_nat (length l)) (n_pop - Z.of_nat (length l)).
Proof.
  intros Hext. revert k l st.
  induction m as [m IH] using lt_wf_ind. intros k l st Hdir Hinv Hfit Hm.
  destruct (decide (n_generated st < n_pop)) as [Hlt|Hge].
  - specialize (Hfit Hlt).
    destruct (generate_body_spec k st) as [Hbreak Hcont]; [by eexists|done..|].
    rewrite Hext, Hdir, get_trajectory_count_store_of in Hbreak, Hcont.
    destruct (decide (Z.of_nat (length l) = n_pop)) as [Hc|Hc].
    + exists 1%nat. eexists _, []. simpl.
      rewrite bool_decide_eq_true_2 by done. rewrite Hbreak by done.
      rewrite app_nil_r. simpl. split_and!; [done|done|lia|].
      rewrite seqZ_nil by lia. by rewrite app_nil_r.
    + destruct (Hcont Hc) as (Hbody & Hinv' & _). clear Hbreak Hcont.
      pose proof Hinv as (Hset & _). specialize (Hset Hlt).
      set (c := Z.of_nat (length l)) in *.
      set (n_set' := Z.min (n_set st) (n_pop - c)) in *.
      assert (1 ≤ n_set' ≤ n_pop - c) as Hn by (unfold n_set'; lia).
      set (traj_i := sample k traj_len <$> range 0 (n_set st)) in *.
      assert (Z.of_nat (length traj_i) = n_set st) as Hti.
      { unfold traj_i, range. rewrite length_fmap, length_seqZ. lia. }
      pose proof (save_each_store traj_i l 0 (Z.to_nat n_set') (saved st)) as Hsave.
      rewrite take_0, app_nil_r, Z2Nat.id in Hsave by lia.
      change (Z.of_nat 0) with 0 in Hsave. fold c in Hsave.
      unfold range in Hbody, Hinv'. rewrite Z.sub_0_r in Hbody, Hinv'.
      rewrite Hsave in Hbody, Hinv' by (unfold n_set' in *; lia).
      simpl in Hbody, Hinv'.
      set (news1 := take (Z.to_nat n_set') traj_i) in *.
      assert (Z.of_nat (length news1) = n_set') as Hnews.
      { unfold news1. rewrite length_take. unfold n_set' in *. lia. }
      destruct (IH (Z.to_nat (n_pop - c - n_set')) ltac:(lia) (S k) (l ++ news1)
                  (mkGenerate (store_of (l ++ news1)) c n_set'
                     (saved st ++ seqZ c n_set')))
        as (fuel & st' & news & Hrun & Hd & Hl & Hs); [done|done|..].
      { simpl. rewrite length_app. lia. }
      { rewrite length_app. lia. }
      exists (S fuel), st', (news1 ++ news). simpl.
      rewrite bool_decide_eq_true_2 by done. rewrite Hbody.
      rewrite app_assoc. split_and!; [done|done|..].
      * rewrite Hl, length_app. lia.
      * rewrite Hs. simpl. rewrite <-app_assoc. f_equal.
        rewrite length_app, Nat2Z.inj_add, Hnews. fold c.
        rewrite <-seqZ_app by lia. f_equal. lia.
  - exists 1%nat, st, []. simpl. rewrite bool_decide_eq_false_2 by done.
    rewrite app_nil_r. destruct Hinv as (_ & [?|Heq] & _); [lia|].
    rewrite Hdir, get_trajectory_count_store_of in Heq.
    split_and!; [done|done|lia|].
    rewrite seqZ_nil by lia. by rewrite app_nil_r.
Qed.

(** C5. The loop of [generate] reads the count again in each turn, before it
    saves anything. For every behaviour of the other writers: at a turn where
    the count read is [n_pop] or more, nothing is saved and the loop ends
    there; at a turn where it is less, the turn saves [min(n_set, n_pop -
    count)] trajectories at the indices that follow the count, and the loop
    goes on. Whenever the loop ends, the count it read last, which is that of
    the directory it leaves, is [n_pop] or more, and no trajectory has been
    saved at an index of [n_pop] or above. It ends at once when the target is
    met at the start, and, alone on a directory of consecutive files, it ends
    with the files [0 .. n_pop - 1]. *)
Theorem generate_spec dir :
  (∀ (k : nat) st,
     loop_head sample external cfg n_pop traj_len dir k st →
     n_generated st < n_pop →
     let dir_k := external k (gen_dir st) in
     let count := get_trajectory_count dir_k in
     (n_pop ≤ count →
        ∃ st', generate (S (S k)) sample external cfg dir = Some (Ok (), st')
               ∧ gen_dir st' = dir_k
               ∧ saved st' = saved st)
     ∧ (count < n_pop →
        ∃ st', loop_head sample external cfg n_pop traj_len dir (S k) st'
               ∧ n_generated st' = count
               ∧ 1 ≤ Z.min (n_set st) (n_pop - count)
               ∧ saved st'
                 = saved st ++ seqZ count (Z.min (n_set st) (n_pop - count))))
  ∧ (∀ (fuel : nat) r st',
       generate fuel sample external cfg dir = Some (r, st') →
       r = Ok ()
       ∧ n_pop ≤ n_generated st'
       ∧ n_generated st' = get_trajectory_count (gen_dir st')
       ∧ ∀ i, i ∈ saved st' → 0 ≤ i < n_pop)
  ∧ (n_pop ≤ get_trajectory_count dir →
       generate 1 sample external cfg dir
       = Some (Ok (), mkGenerate dir (get_trajectory_count dir) 30 []))
  ∧ (∀ l : list Tensor,
       (∀ k dir, external k dir = dir) →
       dir = store_of l →
       ∃ (fuel : nat) st' (news : list Tensor),
         generate fuel sample external cfg dir = Some (Ok (), st')
         ∧ gen_dir st' = store_of (l ++ news)
         ∧ Z.of_nat (length (l ++ news)) = Z.max (Z.of_nat (length l)) n_pop
         ∧ saved st' = seqZ (Z.of_nat (length l)) (n_pop - Z.of_nat (length l))).
Proof.
  split_and!.
  - intros k st Hhead Hlt dir_k count.
    pose proof (loop_head_inv dir k st Hhead) as Hinv.
    destruct (generate_body_spec k st) as [Hbreak Hcont]; [by eexists|done..|].
    fold dir_k count in Hbreak, Hcont. split.
    + intros Hmet. replace (S (S k)) with (k + 2)%nat by lia.
      rewrite (generate_from_head dir k st 2 Hhead).
      cbn [generate_loop]. rewrite bool_decide_eq_true_2 by done.
      destruct (decide (count = n_pop)) as [Hc|Hc].
      * rewrite Hbreak by done. by eexists.
      * destruct (Hcont Hc) as (-> & _ & Hsame).
        rewrite bool_decide_eq_false_2 by (simpl; lia).
        eexists. split; [done|]. simpl. split; [apply Hsame; lia|].
        rewrite seqZ_nil by lia. by rewrite app_nil_r.
    + intros Hless. destruct Hcont as (Hbody & Hinv' & _); [lia|].
      eexists. split; [by eapply loop_head_next|]. simpl.
      destruct Hinv as (Hset & _). specialize (Hset Hlt). split_and!; [done|lia|done].
  - intros fuel r st' Hrun.
    replace fuel with (0 + fuel)%nat in Hrun by done.
    rewrite (generate_from_head dir 0 _ fuel (loop_head_first _ _ _ _ _ _)) in Hrun.
    eapply generate_loop_exit; [|done].
    by apply (loop_head_inv dir 0), loop_head_first.
  - intros Hmet. unfold generate. rewrite Hgcfg, <-Hn_pop. simpl.
    by rewrite bool_decide_eq_false_2 by lia.
  - intros l Hext ->.
    destruct (generate_loop_alone (Z.to_nat (n_pop - Z.of_nat (length l))) 0 l
                (mkGenerate (store_of l) (get_trajectory_count (store_of l)) 30 []))
      as (fuel & st' & news & Hrun & Hd & Hl & Hs); [done|done|..].
    { by apply (loop_head_inv (store_of l) 0), loop_head_first. }
    { simpl. rewrite get_trajectory_count_store_of. lia. }
    { done. }
    exists fuel, st', news. split_and!; [|done..].
    replace fuel with (0 + fuel)%nat by done.
    by rewrite (generate_from_head (store_of l) 0 _ fuel (loop_head_first _ _ _ _ _ _)).
Qed.

End GenerateFacts.

(** * Examples *)

Section SlicerExamples.

Lemma add_sliced_trajectory_slices_witness :
  add_sliced_trajectory (ramp 0 5) slicer_1_2_2
  = (Ok (), mkSlicer 1 2 2 [[0; 1]; [1; 2]] [[2; 3]; [3; 4]]).
Proof.
  destruct (add_sliced_trajectory_slices (ramp 0 5) slicer_1_2_2) as [_ Hlong];
    [simpl; lia..|].
  destruct Hlong as (ins & outs & _ & _ & _ & _); [simpl; lia|].
  reflexivity.
Defined.

(** The claim C3 as it is stated fails on a trajectory of two states with
    [t_skip = 1] and [t_prediction = 2]: it promises [max(0, 2 - 2 - 1) = 0]
    slice pairs, and the append raises an assertion error instead. *)
Lemma add_sliced_trajectory_slices_counterexample :
  ¬ ∃ self',
      add_sliced_trajectory (ramp 0 2) slicer_1_2_2 = (Ok (), self')
      ∧ length (in_slices self')
        = (length (in_slices slicer_1_2_2) + Z.to_nat (Z.max 0 (2 - 2 - 1)))%nat.
Proof. intros (self' & Hadd & _). vm_compute in Hadd. discriminate. Qed.

Lemma add_sliced_trajectory_no_anchor_witness :
  add_sliced_trajectory (ramp 0 2) slicer_1_2_2
  = (Raise AssertionError, slicer_1_2_2)
  ∧ add_sliced_trajectory (ramp 0 3) slicer_1_2_2 = (Ok (), slicer_1_2_2).
Proof.
  split.
  - apply (add_sliced_trajectory_no_anchor (ramp 0 2) slicer_1_2_2);
      simpl; lia.
  - apply (add_sliced_trajectory_no_anchor (ramp 0 3) slicer_1_2_2);
      simpl; lia.
Defined.

(** The claim C7 as it is stated fails on the empty trajectory with the
    default windowing: its length 0 is below [t_skip + t_prediction = 1],
    and the append is an error, not a silent no-op. *)
Lemma add_sliced_trajectory_no_anchor_counterexample :
  (Z.of_nat (length (ramp 0 0)) < t_skip slicer_0_1_1 + t_prediction slicer_0_1_1)
  ∧ (add_sliced_trajectory (ramp 0 0) slicer_0_1_1).1 ≠ Ok ().
Proof. split; [by vm_compute|]. vm_compute. discriminate. Qed.

Lemma add_sliced_trajectory_append_stable_witness :
  in_slices (add_sliced_trajectory (ramp 10 4) slicer_after_A).2
  = [[0; 1]; [1; 2]; [10; 11]]
  ∧ getitem (add_sliced_trajectory (ramp 10 4) slicer_after_A).2 1
    = getitem slicer_after_A 1.
Proof.
  destruct (add_sliced_trajectory_append_stable (ramp 10 4) slicer_after_A)
    as (_ & Hin & _ & _ & Hget); [reflexivity|].
  split; [by rewrite Hin|].
  apply Hget. split; [lia|by vm_compute].
Defined.

End SlicerExamples.

Section FilesExamples.
Import file_utils.
Local Open Scope string_scope.


End FilesExamples.

Section ManagerExamples.

Lemma ramps_sliceable (cfg : DataConfig.t) (n : Z) :
  DataConfig.t_skip cfg + DataConfig.t_prediction cfg ≤ 3 →
  Forall (sliceable cfg) (ramps n).
Proof.
  intros Hcfg. apply Forall_fmap, Forall_forall. intros i _.
  cbv [compose sliceable ramp]. rewrite length_seqZ. lia.
Qed.

Lemma ramps_length (n : Z) : 0 ≤ n → Z.of_nat (length (ramps n)) = n.
Proof. intros Hn. unfold ramps. rewrite length_fmap, length_seqZ. lia. Qed.






(** C2. With [dynamic_updates_from = 0] the constructor takes the dynamic
    path, because it tests the field against [None]; but [get_trajectory_split]
    tests its truth value, so that, after the first split of four
    trajectories, a call on a directory grown to eight does not read the
    count and leaves the manager as it was, where the same call with
    [dynamic_updates_from = 1] takes the four new trajectories in. *)
Theorem get_trajectory_split_dynamic_zero :
  acquisition_mode (dynamic_config 0) = Ok Dynamic
  ∧ n_on_disk (split_manager (dynamic_config 0) 4) = 4
  ∧ get_trajectory_count (ramp_dir 8) = 8
  ∧ get_trajectory_split identity_perm (ramp_dir 8) (split_manager (dynamic_config 0) 4)
    = (return_sets (split_manager (dynamic_config 0) 4),
       split_manager (dynamic_config 0) 4)
  ∧ n_on_disk
      (get_trajectory_split identity_perm (ramp_dir 8)
         (split_manager (dynamic_config 1) 4)).2 = 8.
Proof. split_and!; by vm_compute. Qed.

End ManagerExamples.

Section GenerateExamples.

Lemma generate_spec_witness :
  ∃ (fuel : nat) st',
    generate fuel ramp_sample nobody generate_config (ramp_dir 2) = Some (Ok (), st')
    ∧ saved st' = [2; 3; 4].
Proof.
  destruct (generate_spec ramp_sample nobody generate_config 5 3
              generation_config_5_3 eq_refl eq_refl eq_refl ltac:(lia) (ramp_dir 2))
    as (_ & _ & _ & Halone).
  destruct (Halone (ramps 2)) as (fuel & st' & news & Hrun & _ & _ & Hsaved);
    [done|done|].
  exists fuel, st'. split; [exact Hrun|]. by rewrite Hsaved.
Defined.

End GenerateExamples.

(** * Further properties *)

(** ** The slicer: constructor, length and indexing *)

Section SlicerMore.
Context {State : Type}.
Local Abbreviation Tensor := (list State).
Implicit Types (self : TrajectorySliceDataset State) (traj : Tensor).

Lemma add_sliced_trajectory_config traj self :
  t_skip (add_sliced_trajectory traj self).2 = t_skip self
  ∧ t_history (add_sliced_trajectory traj self).2 = t_history self
  ∧ t_prediction (add_sliced_trajectory traj self).2 = t_prediction self.
Proof.
  unfold add_sliced_trajectory. case_bool_decide; [|done].
  by rewrite foldl_append_slice.
Qed.

Lemma add_each_short (l : list Tensor) self :
  Exists (λ t, Z.of_nat (length t) < t_skip self + t_prediction self) l →
  (add_each l self).1 = Raise AssertionError.
Proof.
  revert self. induction l as [|t l IH]; intros self Hex; [by inv Hex|].
  simpl. destruct (decide (Z.of_nat (length t) < t_skip self + t_prediction self))
    as [Hshort|Hlong].
  - by rewrite add_sliced_trajectory_short.
  - pose proof (add_sliced_trajectory_config t self) as (C1 & _ & C3).
    rewrite add_sliced_trajectory_long in * by lia. simpl in *.
    apply IH. simpl. inv Hex; [lia|done].
Qed.

Lemma add_each_slices (l : list Tensor) self :
  Forall (λ t, t_skip self + t_prediction self ≤ Z.of_nat (length t)) l →
  add_each l self
  = (Ok (),
     mkSlicer (t_skip self) (t_history self) (t_prediction self)
       (in_slices self
        ++ concat ((λ t, in_slice t (t_history self)
                           <$> range (t_skip self)
                                 (Z.of_nat (length t) - t_prediction self)) <$> l))
       (out_slices self
        ++ concat ((λ t, out_slice t (t_prediction self)
                           <$> range (t_skip self)
                                 (Z.of_nat (length t) - t_prediction self)) <$> l))).
Proof.
  revert self. induction l as [|t l IH]; intros self Hall.
  - simpl. rewrite !app_nil_r. by destruct self.
  - apply Forall_cons in Hall as [Ht Hall]. simpl.
    rewrite add_sliced_trajectory_long by done. cbv zeta.
    rewrite IH by done. simpl. by rewrite <-!app_assoc.
Qed.

(** X1. The constructor succeeds exactly when [t_skip + 1 >= t_history] and
    every trajectory has at least [t_skip + t_prediction] states; in every
    other case it raises an assertion error. *)
Theorem TrajectorySliceDataset_init_succeeds_iff (l : list Tensor)
    (skip history prediction : Z) :
  let accepted :=
    history ≤ skip + 1
    ∧ Forall (λ t, skip + prediction ≤ Z.of_nat (length t)) l in
  (accepted →
     ∃ self, TrajectorySliceDataset_init l skip history prediction = Ok self
             ∧ t_skip self = skip
             ∧ t_history self = history
             ∧ t_prediction self = prediction)
  ∧ (¬ accepted →
     TrajectorySliceDataset_init l skip history prediction = Raise AssertionError).
Proof.
  intros accepted. unfold TrajectorySliceDataset_init. split.
  - intros [Hcfg Hall]. rewrite bool_decide_eq_true_2 by done.
    rewrite add_each_slices by done. by eexists.
  - intros Hno. case_bool_decide as Hcfg; [|done].
    assert (¬ Forall (λ t, skip + prediction ≤ Z.of_nat (length t)) l) as Hnall
      by (intros ?; by apply Hno).
    apply not_Forall_Exists in Hnall; [|apply _].
    pose proof (add_each_short l (mkSlicer skip history prediction [] [])) as Hraise.
    destruct (add_each l _) as [[[]|e] s]; simpl in *.
    + discriminate Hraise. eapply Exists_impl; [done|]. simpl. lia.
    + assert (e = AssertionError) as ->; [|done].
      cut (Raise (A := ()) e = Raise AssertionError); [congruence|].
      apply Hraise. eapply Exists_impl; [done|]. simpl. lia.
Qed.

(** X2. A slicer constructed from a list of trajectories holds the slices of
    the first trajectory, then those of the second, and so on, each in the
    order of its anchors; its length is the sum over the trajectories of
    [len(traj) - t_prediction - t_skip]. *)
Theorem TrajectorySliceDataset_init_slices (l : list Tensor)
    (skip history prediction : Z) self :
  TrajectorySliceDataset_init l skip history prediction = Ok self →
  in_slices self
  = concat ((λ t, in_slice t history
                    <$> range skip (Z.of_nat (length t) - prediction)) <$> l)
  ∧ out_slices self
    = concat ((λ t, out_slice t prediction
                      <$> range skip (Z.of_nat (length t) - prediction)) <$> l)
  ∧ len self
    = Z.of_nat (sum_list_with
                  (λ t, Z.to_nat (Z.of_nat (length t) - prediction - skip)) l).
Proof.
  intros Hinit.
  destruct (decide (history ≤ skip + 1
                    ∧ Forall (λ t, skip + prediction ≤ Z.of_nat (length t)) l))
    as [[Hcfg Hall]|Hno].
  - unfold TrajectorySliceDataset_init in Hinit.
    rewrite bool_decide_eq_true_2 in Hinit by done.
    rewrite add_each_slices in Hinit by done. injection Hinit as <-. simpl.
    split_and!; [done..|]. unfold len. simpl. f_equal.
    clear. induction l as [|t l IH]; [done|].
    csimpl. rewrite length_app, IH, length_fmap. unfold range.
    rewrite length_seqZ. lia.
  - unfold TrajectorySliceDataset_init in Hinit.
    case_bool_decide as Hcfg; [|done].
    assert (¬ Forall (λ t, skip + prediction ≤ Z.of_nat (length t)) l) as Hnall
      by (intros ?; by apply Hno).
    apply not_Forall_Exists in Hnall; [|apply _].
    pose proof (add_each_short l (mkSlicer skip history prediction [] [])) as Hraise.
    destruct (add_each l _) as [[[]|e] s]; [|done].
    discriminate Hraise. eapply Exists_impl; [done|]. simpl. lia.
Qed.

Lemma add_sliced_trajectory_windows_ok traj self :
  windows_ok self → windows_ok (add_sliced_trajectory traj self).2.
Proof.
  intros (Hcfg & Hh & Hp & Hin & Hout). unfold add_sliced_trajectory.
  case_bool_decide as Hlen; [|done]. rewrite foldl_append_slice.
  unfold windows_ok. simpl. split_and!; [done..| |].
  - apply Forall_app. split; [done|]. apply Forall_fmap, Forall_forall.
    intros i Hi. unfold range in Hi. apply elem_of_seqZ in Hi. simpl.
    destruct (in_slice_window traj (t_history self) i) as [-> ?]; [lia..|done].
  - apply Forall_app. split; [done|]. apply Forall_fmap, Forall_forall.
    intros i Hi. unfold range in Hi. apply elem_of_seqZ in Hi. simpl.
    destruct (out_slice_window traj (t_prediction self) i) as [-> ?]; [lia..|done].
Qed.

Lemma add_each_windows_ok (l : list Tensor) self :
  windows_ok self → windows_ok (add_each l self).2.
Proof.
  revert self. induction l as [|t l IH]; intros self Hok; [done|].
  simpl. pose proof (add_sliced_trajectory_windows_ok t self Hok) as Hstep.
  destruct (add_sliced_trajectory t self) as [[[]|e] self']; simpl in *; auto.
Qed.

Lemma py_getitem_elem_of {A} (l : list A) (idx : Z) (x : A) :
  py_getitem l idx = Ok x → x ∈ l.
Proof.
  unfold py_getitem. case_bool_decide; [|done].
  destruct (l !! _) as [y|] eqn:Hy; [|done].
  intros [= <-]. by eapply list_elem_of_lookup_2.
Qed.

Lemma add_each_config (l : list Tensor) self :
  t_skip (add_each l self).2 = t_skip self
  ∧ t_history (add_each l self).2 = t_history self
  ∧ t_prediction (add_each l self).2 = t_prediction self.
Proof.
  revert self. induction l as [|t l IH]; intros self; [done|].
  simpl. pose proof (add_sliced_trajectory_config t self) as (C1 & C2 & C3).
  destruct (add_sliced_trajectory t self) as [[[]|e] self']; simpl in *; [|done].
  destruct (IH self') as (D1 & D2 & D3). by rewrite D1, D2, D3.
Qed.

(** X3. In a slicer built by the constructor with [t_history >= 0] and
    [t_prediction >= 0], and grown by any number of later appends (accepted
    or not), every pair that indexing returns has a history window of
    exactly [t_history] states and a future window of exactly [t_prediction]
    states. *)
Theorem getitem_window_lengths (l more : list Tensor)
    (skip history prediction idx : Z) self (x y : Tensor) :
  TrajectorySliceDataset_init l skip history prediction = Ok self →
  0 ≤ history → 0 ≤ prediction →
  getitem (add_each more self).2 idx = Ok (x, y) →
  Z.of_nat (length x) = history ∧ Z.of_nat (length y) = prediction.
Proof.
  intros Hinit Hh Hp Hget.
  assert (windows_ok self ∧ t_history self = history ∧ t_prediction self = prediction)
    as (Hok & Eh & Ep).
  { unfold TrajectorySliceDataset_init in Hinit. case_bool_decide; [|done].
    set (s0 := mkSlicer skip history prediction [] []) in *.
    assert (windows_ok s0) as Hok0 by (unfold windows_ok; by simpl).
    pose proof (add_each_windows_ok l s0 Hok0) as Hok.
    pose proof (add_each_config l s0) as (_ & Eh & Ep).
    destruct (add_each l s0) as [[[]|e] s]; [|done].
    injection Hinit as <-. done. }
  pose proof (add_each_windows_ok more self Hok) as (_ & _ & _ & Hin & Hout).
  pose proof (add_each_config more self) as (_ & Fh & Fp).
  unfold getitem in Hget.
  destruct (py_getitem (in_slices _) idx) as [x'|] eqn:Hx; [|done].
  destruct (py_getitem (out_slices _) idx) as [y'|] eqn:Hy; [|done].
  simpl in Hget. injection Hget as -> ->.
  apply py_getitem_elem_of in Hx, Hy.
  rewrite Forall_forall in Hin, Hout.
  rewrite (Hin x Hx), (Hout y Hy). by rewrite Fh, Fp, Eh, Ep.
Qed.

(** X4. On a slicer with one output slice per input slice, indexing accepts
    exactly the indices [-len <= idx < len]: a negative index [idx] reads the
    pair at [idx + len], and every other index raises [IndexError]. *)
Theorem getitem_index_range self (idx : Z) :
  length (in_slices self) = length (out_slices self) →
  (0 ≤ idx < len self → ∃ pair, getitem self idx = Ok pair)
  ∧ (- len self ≤ idx < 0 → getitem self idx = getitem self (idx + len self))
  ∧ (idx < - len self ∨ len self ≤ idx → getitem self idx = Raise IndexError).
Proof.
  intros Hpair. unfold len, getitem.
  assert (∀ (A : Type) (l : list A),
            length l = length (in_slices self) →
            (0 ≤ idx < Z.of_nat (length (in_slices self)) →
               ∃ x, py_getitem l idx = Ok x)
            ∧ (- Z.of_nat (length (in_slices self)) ≤ idx < 0 →
               py_getitem l idx
               = py_getitem l (idx + Z.of_nat (length (in_slices self))))
            ∧ (idx < - Z.of_nat (length (in_slices self))
               ∨ Z.of_nat (length (in_slices self)) ≤ idx →
               py_getitem l idx = Raise IndexError)) as Hlist.
  { intros A l Hl. unfold py_getitem. rewrite Hl. split_and!.
    - intros Hidx. rewrite (bool_decide_eq_false_2 (idx < 0)) by lia.
      rewrite bool_decide_eq_true_2 by lia.
      destruct (lookup_lt_is_Some_2 l (Z.to_nat idx)) as [x ->]; [lia|].
      by eexists.
    - intros Hidx. rewrite (bool_decide_eq_true_2 (idx < 0)) by lia.
      by rewrite (bool_decide_eq_false_2 (idx + _ < 0)) by lia.
    - intros Hidx. destruct (decide (idx < 0)).
      + rewrite (bool_decide_eq_true_2 (idx < 0)) by done.
        by rewrite bool_decide_eq_false_2 by lia.
      + rewrite (bool_decide_eq_false_2 (idx < 0)) by done.
        by rewrite bool_decide_eq_false_2 by lia. }
  destruct (Hlist _ (in_slices self) eq_refl) as (I1 & I2 & I3).
  destruct (Hlist _ (out_slices self) (eq_sym Hpair)) as (O1 & O2 & O3).
  split_and!.
  - intros Hidx. destruct (I1 Hidx) as [x ->]. destruct (O1 Hidx) as [y ->].
    by eexists.
  - intros Hidx. by rewrite I2, O2.
  - intros Hidx. by rewrite I3.
Qed.

(** X5. The two windows cut at an anchor are adjacent and do not overlap:
    for an anchor [i] with [t_history] states up to it and [t_prediction]
    states after it inside the trajectory, the history window followed by
    the future window is the run of [t_history + t_prediction] states that
    starts at [i + 1 - t_history]; the history ends at state [i] and the
    future starts at state [i + 1]. *)
Theorem in_slice_out_slice_adjacent traj (history prediction i : Z) :
  0 ≤ history → 0 ≤ prediction →
  0 ≤ i + 1 - history →
  i + 1 + prediction ≤ Z.of_nat (length traj) →
  in_slice traj history i ++ out_slice traj prediction i
  = window traj (i + 1 - history) (history + prediction)
  ∧ (1 ≤ history → last (in_slice traj history i) = traj !! Z.to_nat i)
  ∧ (1 ≤ prediction → head (out_slice traj prediction i) = traj !! Z.to_nat (i + 1)).
Proof.
  intros Hh Hp Hlo Hhi.
  destruct (in_slice_window traj history i) as [-> _]; [lia..|].
  destruct (out_slice_window traj prediction i) as [-> _]; [lia..|].
  unfold window. split_and!.
  - replace (drop (Z.to_nat (i + 1)) traj)
      with (drop (Z.to_nat history) (drop (Z.to_nat (i + 1 - history)) traj))
      by (rewrite drop_drop; f_equal; lia).
    rewrite take_take_drop. f_equal. lia.
  - intros H1. rewrite last_lookup, length_take, length_drop.
    rewrite lookup_take_lt, lookup_drop by lia. f_equal. lia.
  - intros H1. rewrite head_lookup, lookup_take_lt, lookup_drop by lia.
    f_equal. lia.
Qed.

End SlicerMore.

(** ** file_utils: names, counts and directories *)

Section FilesMore.
Import file_utils.
Context {X : Type}.
Local Abbreviation Dir := (gmap string X).
Local Abbreviation FS := (gmap string (gmap string X)).
Implicit Types (fs : FS) (dir : Dir) (extension : string).

Lemma glob_match_plain (extension : string) (n : nat) :
  glob_plain extension = true →
  (String.length extension ≤ n)%nat →
  glob_match (glob_tokens n extension) extension = true.
Proof.
  revert n. induction extension as [|c rest IH]; intros n Hplain Hn.
  - by destruct n.
  - destruct n as [|n]; [simpl in Hn; lia|].
    simpl in Hplain. repeat (apply andb_prop in Hplain as [Hplain ?]).
    apply negb_true_iff in Hplain. simpl.
    repeat match goal with H : negb _ = true |- _ => apply negb_true_iff in H end.
    repeat match goal with H : (_ =? _)%char = false |- _ => rewrite H end.
    simpl. rewrite Ascii.eqb_refl. simpl. apply IH; [done|simpl in Hn; lia].
Qed.

Lemma glob_match_star_plain (extension s : string) (n : nat) :
  glob_plain extension = true →
  (String.length extension ≤ n)%nat →
  glob_match (GStar :: glob_tokens n extension) (s +:+ extension) = true.
Proof.
  intros Hplain Hn.
  pose proof (glob_match_plain extension n Hplain Hn) as Hext.
  induction s as [|c s IH].
  - change ("" +:+ extension) with extension. simpl in *.
    destruct extension; by rewrite Hext.
  - change (String c s +:+ extension) with (String c (s +:+ extension)).
    simpl in *. rewrite IH. by rewrite orb_true_r.
Qed.

Lemma numeric_pattern_tokens (extension : string) :
  glob_tokens (String.length ("[0-9]*" +:+ extension)) ("[0-9]*" +:+ extension)
  = GClass false [("0", "9")%char]
      :: GStar :: glob_tokens (4 + String.length extension) extension.
Proof. reflexivity. Qed.

Lemma fnmatch_numeric_first (extension : string) (c : ascii) (rest : string) :
  glob_plain extension = true →
  fnmatch (String c rest +:+ extension) ("[0-9]*" +:+ extension) = is_digit c.
Proof.
  intros Hplain. unfold fnmatch. rewrite numeric_pattern_tokens.
  change (String c rest +:+ extension) with (String c (rest +:+ extension)).
  change (glob_match (?t :: ?toks) (String c ?name))
    with (xorb false (in_class [("0", "9")%char] c)
          && glob_match (GStar :: glob_tokens (4 + String.length extension) extension)
               name).
  rewrite glob_match_star_plain by (done || lia).
  unfold in_class, is_digit. simpl. by rewrite orb_false_r, andb_true_r.
Qed.

Lemma pretty_Z_negative_first (i : Z) :
  i < 0 → ∃ rest, pretty i = String "-" rest.
Proof. intros Hi. destruct i as [|p|p]; [lia..|]. by eexists. Qed.

(** X6. The name under which an index is stored, [str(i) + extension], is
    counted by [get_numeric_file_count] exactly when the index is not
    negative, for every extension without pattern characters; and two
    indices never share a name. *)
Theorem numbered_name_counted_iff (extension : string) (i j : Z) :
  glob_plain extension = true →
  (fnmatch (pretty i +:+ extension) ("[0-9]*" +:+ extension) = true ↔ 0 ≤ i)
  ∧ (pretty i +:+ extension = pretty j +:+ extension → i = j).
Proof.
  intros Hplain. split.
  - destruct (decide (0 ≤ i)) as [Hi|Hi].
    + destruct (pretty_Z_digit_first i Hi) as (d & rest & -> & Hd).
      by rewrite fnmatch_numeric_first, Hd.
    + destruct (pretty_Z_negative_first i) as [rest ->]; [lia|].
      rewrite fnmatch_numeric_first by done. split; [done|lia].
  - intros H%string_app_inj_r. by apply (inj pretty).
Qed.

(** *** Counting after a write *)

Lemma numeric_file_count_insert dir (name : string) (x : X) extension :
  numeric_file_count (<[name := x]> dir) extension
  = numeric_file_count dir extension
    + (if bool_decide (dir !! name = None)
          && fnmatch name ("[0-9]*" +:+ extension)
       then 1 else 0).
Proof.
  unfold numeric_file_count, glob_numeric.
  destruct (fnmatch name ("[0-9]*" +:+ extension)) eqn:Hmatch.
  - rewrite map_filter_insert_True by (simpl; by rewrite Hmatch).
    destruct (dir !! name) as [y|] eqn:Hname.
    + rewrite bool_decide_eq_false_2 by done. simpl.
      rewrite map_size_insert_Some; [lia|].
      exists y. apply map_lookup_filter_Some. simpl. by rewrite Hmatch.
    + rewrite bool_decide_eq_true_2 by done. simpl.
      rewrite map_size_insert_None; [lia|].
      apply map_lookup_filter_None. by left.
  - rewrite andb_false_r, Z.add_0_r.
    rewrite map_filter_insert_not; [done|].
    intros y. simpl. rewrite Hmatch. by intros [].
Qed.

(** *** Directories of consecutively numbered files *)

Lemma numbered_snoc extension (l : list X) (x : X) :
  numbered extension (l ++ [x])
  = <[pretty (Z.of_nat (length l)) +:+ extension := x]> (numbered extension l).
Proof.
  unfold numbered. rewrite imap_app. simpl. rewrite Nat.add_0_r.
  apply list_to_map_snoc. rewrite fmap_imap.
  intros (j & y & Heq & Hj)%elem_of_lookup_imap. simpl in Heq.
  apply string_app_inj_r, (inj pretty) in Heq.
  apply lookup_lt_Some in Hj. lia.
Qed.

Lemma numbered_lookup extension (l : list X) (i : Z) :
  0 ≤ i → numbered extension l !! (pretty i +:+ extension) = l !! Z.to_nat i.
Proof.
  intros Hi. induction l as [|x l IH] using rev_ind.
  - by rewrite lookup_nil.
  - rewrite numbered_snoc. destruct (decide (i = Z.of_nat (length l))) as [->|Hne].
    + rewrite lookup_insert_eq, Nat2Z.id.
      by rewrite lookup_app_r, Nat.sub_diag by lia.
    + rewrite lookup_insert_ne.
      2:{ intros Heq. apply string_app_inj_r, (inj pretty) in Heq. lia. }
      rewrite IH. destruct (decide (Z.to_nat i < length l)%nat).
      * by rewrite lookup_app_l by lia.
      * rewrite !lookup_ge_None_2; [done|rewrite length_app; simpl; lia|lia].
Qed.

Lemma numbered_names extension (l : list X) (name : string) :
  is_Some (numbered extension l !! name) →
  ∃ i, 0 ≤ i < Z.of_nat (length l) ∧ name = pretty i +:+ extension.
Proof.
  induction l as [|x l IH] using rev_ind; intros Hname.
  - by destruct Hname.
  - rewrite numbered_snoc in Hname. rewrite length_app. simpl.
    destruct (decide (pretty (Z.of_nat (length l)) +:+ extension = name))
      as [<-|Hne].
    + exists (Z.of_nat (length l)). split; [lia|done].
    + rewrite lookup_insert_ne in Hname by done.
      destruct (IH Hname) as (i & Hi & ->). exists i. split; [lia|done].
Qed.

Lemma numeric_file_count_numbered extension (l : list X) :
  glob_plain extension = true →
  numeric_file_count (numbered extension l) extension = Z.of_nat (length l).
Proof.
  intros Hplain. induction l as [|x l IH] using rev_ind; [done|].
  rewrite numbered_snoc, numeric_file_count_insert, IH, length_app.
  rewrite bool_decide_eq_true_2.
  2:{ rewrite numbered_lookup by lia. apply lookup_ge_None_2. lia. }
  destruct (pretty_Z_digit_first (Z.of_nat (length l))) as (d & rest & -> & Hd);
    [lia|].
  rewrite fnmatch_numeric_first, Hd by done. simpl. lia.
Qed.

(** *** Creating directories *)

Lemma assure_created_exists (directory : string) fs :
  (assure_created directory fs).1 = directory
  ∧ is_Some ((assure_created directory fs).2 !! directory).
Proof.
  unfold assure_created. simpl. split; [done|].
  destruct (fs !! directory) eqn:Hd; [by rewrite Hd|].
  by rewrite lookup_insert_eq.
Qed.

Lemma assure_created_keeps (directory p : string) fs :
  is_Some (fs !! p) → is_Some ((assure_created directory fs).2 !! p).
Proof.
  intros Hp. unfold assure_created. simpl.
  destruct (fs !! directory) eqn:Hd; [done|].
  destruct (decide (directory = p)) as [->|Hne].
  - by rewrite lookup_insert_eq.
  - by rewrite lookup_insert_ne.
Qed.

Lemma assure_created_id (directory : string) fs :
  is_Some (fs !! directory) → (assure_created directory fs).2 = fs.
Proof. intros [d Hd]. unfold assure_created. simpl. by rewrite Hd. Qed.

(** The four directory functions of a storage, each creating the storage
    and one directory under it. *)
Lemma storage_subdir_spec (sub : string) (storage_name p : string) fs :
  let fs' := (assure_created (path_join storage_name sub)
                (assure_created storage_name fs).2).2 in
  listdir p fs' = listdir p fs
  ∧ is_Some (fs' !! storage_name)
  ∧ is_Some (fs' !! path_join storage_name sub)
  ∧ (is_Some (fs !! p) → is_Some (fs' !! p))
  ∧ (is_Some (fs !! storage_name) →
     is_Some (fs !! path_join storage_name sub) → fs' = fs).
Proof.
  intros fs'. unfold fs'. split_and!.
  - by rewrite !listdir_assure_created.
  - apply assure_created_keeps, assure_created_exists.
  - apply assure_created_exists.
  - intros Hp. by do 2 apply assure_created_keeps.
  - intros H1 H2. rewrite (assure_created_id storage_name) by done.
    by rewrite assure_created_id.
Qed.

(** X7. [assure_storage_tree_created] leaves the storage and its [urdf],
    [data], [tensorboard] and [temp] directories in existence, keeps every
    directory that existed and the files of every directory, and changes
    nothing when it is run again. *)
Theorem assure_storage_tree_created_spec (storage_name : string) fs :
  let fs' := assure_storage_tree_created storage_name fs in
  (∀ p, listdir p fs' = listdir p fs)
  ∧ (∀ p, is_Some (fs !! p) → is_Some (fs' !! p))
  ∧ is_Some (fs' !! storage_name)
  ∧ is_Some (fs' !! path_join storage_name "urdf")
  ∧ is_Some (fs' !! path_join storage_name "data")
  ∧ is_Some (fs' !! path_join storage_name "tensorboard")
  ∧ is_Some (fs' !! path_join storage_name "temp")
  ∧ assure_storage_tree_created storage_name fs' = fs'.
Proof.
  intros fs'.
  assert (∀ sub fs0,
            (let (created, fs) :=
               (let (storage, fs) := storage_dir storage_name fs0 in
                assure_created (path_join storage sub) fs) in
             (assure_created created fs).2)
            = (assure_created (path_join storage_name sub)
                 (assure_created storage_name fs0).2).2) as Hstep.
  { intros sub fs0. unfold storage_dir.
    pose proof (assure_created_exists (path_join storage_name sub)
                  (assure_created storage_name fs0).2) as Hex.
    destruct (assure_created storage_name fs0) as [s fs1] eqn:E1.
    assert (s = storage_name) as -> by (by injection E1 as <- _).
    cbn [fst snd] in Hex |- *.
    destruct (assure_created (path_join storage_name sub) fs1) as [c fs2] eqn:E2.
    assert (c = path_join storage_name sub) as -> by (by injection E2 as <- _).
    destruct Hex as [_ Hex]. by apply assure_created_id. }
  set (fs1 := (assure_created (path_join storage_name "urdf")
                 (assure_created storage_name fs).2).2).
  set (fs2 := (assure_created (path_join storage_name "data")
                 (assure_created storage_name fs1).2).2).
  set (fs3 := (assure_created (path_join storage_name "tensorboard")
                 (assure_created storage_name fs2).2).2).
  set (fs4 := (assure_created (path_join storage_name "temp")
                 (assure_created storage_name fs3).2).2).
  assert (∀ fs0, assure_storage_tree_created storage_name fs0
            = (assure_created (path_join storage_name "temp")
                (assure_created storage_name
                  (assure_created (path_join storage_name "tensorboard")
                    (assure_created storage_name
                      (assure_created (path_join storage_name "data")
                        (assure_created storage_name
                          (assure_created (path_join storage_name "urdf")
                            (assure_created storage_name fs0).2).2).2).2).2).2).2).2)
    as Htree.
  { intros fs0. unfold assure_storage_tree_created. cbn [foldl].
    unfold urdf_dir, data_dir, tensorboard_dir, temp_dir.
    by rewrite !Hstep. }
  assert (fs' = fs4) as -> by apply Htree.
  pose proof (λ p, storage_subdir_spec "urdf" storage_name p fs) as H1.
  pose proof (λ p, storage_subdir_spec "data" storage_name p fs1) as H2.
  pose proof (λ p, storage_subdir_spec "tensorboard" storage_name p fs2) as H3.
  pose proof (λ p, storage_subdir_spec "temp" storage_name p fs3) as H4.
  cbv zeta in H1, H2, H3, H4. fold fs1 in H1. fold fs2 in H2. fold fs3 in H3.
  fold fs4 in H4.
  assert (∀ p, is_Some (fs !! p) → is_Some (fs1 !! p)) as K1
    by (intros p; apply (H1 p)).
  assert (∀ p, is_Some (fs1 !! p) → is_Some (fs2 !! p)) as K2
    by (intros p; apply (H2 p)).
  assert (∀ p, is_Some (fs2 !! p) → is_Some (fs3 !! p)) as K3
    by (intros p; apply (H3 p)).
  assert (∀ p, is_Some (fs3 !! p) → is_Some (fs4 !! p)) as K4
    by (intros p; apply (H4 p)).
  assert (is_Some (fs4 !! storage_name)) as E0
    by (by destruct (H4 storage_name) as (_ & ? & _)).
  assert (is_Some (fs4 !! path_join storage_name "urdf")) as E1.
  { apply K4, K3, K2. by destruct (H1 storage_name) as (_ & _ & ? & _). }
  assert (is_Some (fs4 !! path_join storage_name "data")) as E2.
  { apply K4, K3. by destruct (H2 storage_name) as (_ & _ & ? & _). }
  assert (is_Some (fs4 !! path_join storage_name "tensorboard")) as E3.
  { apply K4. by destruct (H3 storage_name) as (_ & _ & ? & _). }
  assert (is_Some (fs4 !! path_join storage_name "temp")) as E4
    by (by destruct (H4 storage_name) as (_ & _ & ? & _)).
  split_and!; try done.
  - intros p. destruct (H4 p) as [-> _]. destruct (H3 p) as [-> _].
    destruct (H2 p) as [-> _]. by destruct (H1 p) as [-> _].
  - intros p Hp. by apply K4, K3, K2, K1.
  - assert (∀ sub, is_Some (fs4 !! path_join storage_name sub) →
              (assure_created (path_join storage_name sub)
                 (assure_created storage_name fs4).2).2 = fs4) as Hagain.
    { intros sub Hsub.
      by destruct (storage_subdir_spec sub storage_name storage_name fs4)
        as (_ & _ & _ & _ & ->). }
    rewrite Htree. by rewrite !Hagain.
Qed.



(** The two cases of an import. *)
Lemma import_data_to_storage_cases (storage_name import_data_dir : string) fs :
  let target := path_join storage_name "data" in
  let count directory fs := get_numeric_file_count directory TRAJ_EXTENSION fs in
  let fs' := import_data_to_storage storage_name import_data_dir fs in
  (count target fs = count import_data_dir fs →
     ∀ directory, listdir directory fs' = listdir directory fs)
  ∧ (count target fs ≠ count import_data_dir fs →
     listdir target fs' = listdir import_data_dir fs
     ∧ listdir import_data_dir fs' = listdir import_data_dir fs).
Proof.
  intros target count fs'.
  assert (∀ p, listdir p (data_dir storage_name fs).2 = listdir p fs) as Hls
    by (intros p; apply listdir_data_dir).
  unfold fs', import_data_to_storage.
  pose proof (data_dir_path storage_name fs) as Hpath.
  destruct (data_dir storage_name fs) as [d fs1]. simpl in Hpath, Hls. subst d.
  fold target. unfold get_numeric_file_count. rewrite !Hls.
  fold (count target fs) (count import_data_dir fs).
  change (numeric_file_count (listdir target fs) TRAJ_EXTENSION)
    with (count target fs).
  change (numeric_file_count (listdir import_data_dir fs) TRAJ_EXTENSION)
    with (count import_data_dir fs).
  split.
  - intros Heq. by rewrite bool_decide_eq_false_2 by (intros ?; done).
  - intros Hne. rewrite bool_decide_eq_true_2 by done.
    assert (import_data_dir ≠ target) as Hneq by (intros ->; done).
    rewrite <-!Hls. unfold cp_r, rm_r, listdir.
    rewrite lookup_delete_ne by done.
    destruct (fs1 !! import_data_dir) as [files|] eqn:Hsrc.
    + rewrite lookup_delete_eq, lookup_insert_eq.
      by rewrite lookup_insert_ne, lookup_delete_ne, Hsrc by done.
    + by rewrite lookup_delete_eq, lookup_delete_ne, Hsrc by done.
Qed.


End FilesMore.

(** ** The manager: files, failures and repeated calls *)

Section ManagerMore.
Context {State : Type}.
Local Abbreviation Tensor := (list State).
Local Abbreviation Dir := (gmap string (list State)).
Implicit Types (self : SystemDataManager State) (dir : Dir)
  (randperm : Z → list Z).

Lemma fnmatch_trajectory_basename_negative (i : Z) :
  i < 0 →
  file_utils.fnmatch (file_utils.trajectory_basename i)
    ("[0-9]*" +:+ file_utils.TRAJ_EXTENSION) = false.
Proof.
  intros Hi. destruct (pretty_Z_negative_first i Hi) as [rest Hrest].
  unfold file_utils.trajectory_basename. rewrite Hrest.
  by rewrite fnmatch_numeric_first.
Qed.

(** X11. A trajectory saved under an index is what loading that index
    returns, the files of the other indices are as before, and the count
    grows by one exactly when the index is not negative and had no file: a
    save over an existing file or under a negative index leaves the count
    as it was. *)
Theorem torch_save_round_trip (trajectory : Tensor) (i : Z) dir :
  torch_load (torch_save trajectory i dir) i = Ok trajectory
  ∧ (∀ j, j ≠ i → torch_load (torch_save trajectory i dir) j = torch_load dir j)
  ∧ get_trajectory_count (torch_save trajectory i dir)
    = get_trajectory_count dir
      + (if bool_decide (0 ≤ i ∧ dir !! file_utils.trajectory_basename i = None)
         then 1 else 0).
Proof.
  unfold torch_load, torch_save, get_trajectory_count. split_and!.
  - by rewrite lookup_insert_eq.
  - intros j Hj. rewrite lookup_insert_ne; [done|].
    intros Heq. by apply trajectory_basename_inj in Heq.
  - rewrite numeric_file_count_insert. f_equal.
    destruct (decide (0 ≤ i)) as [Hi|Hi].
    + rewrite fnmatch_trajectory_basename by done. rewrite andb_true_r.
      destruct (dir !! file_utils.trajectory_basename i) eqn:Hlook.
      * rewrite bool_decide_eq_false_2 by done.
        by rewrite bool_decide_eq_false_2 by (by intros [_ ?]).
      * rewrite bool_decide_eq_true_2 by done.
        by rewrite bool_decide_eq_true_2.
    + rewrite fnmatch_trajectory_basename_negative by lia.
      rewrite andb_false_r. by rewrite bool_decide_eq_false_2 by (intros [? _]; lia).
Qed.

Lemma load_all_missing dir (selection : list Z) (i : Z) :
  i ∈ selection →
  dir !! file_utils.trajectory_basename i = None →
  load_all dir selection = Raise FileNotFoundError.
Proof.
  intros Hin Hnone. induction selection as [|j rest IH]; [by apply elem_of_nil in Hin|].
  simpl. unfold torch_load at 1.
  destruct (dir !! file_utils.trajectory_basename j) as [t|] eqn:Hj; [|done].
  apply elem_of_cons in Hin as [->|Hin]; [congruence|].
  simpl. by rewrite IH.
Qed.


(** X13. In dynamic mode, when the directory counts fewer files than the
    manager has recorded, the call raises [RuntimeError] (the permutation of
    a negative length); the recorded count is lowered all the same, and the
    three sets are as before. *)
Theorem get_trajectory_split_shrunk randperm dir self :
  train_set self ≠ None →
  truthy (DataConfig.dynamic_updates_from (config self)) = true →
  get_trajectory_count dir < n_on_disk self →
  get_trajectory_split randperm dir self
  = (Raise RuntimeError,
     mkManager (config self) (get_trajectory_count dir)
       (train_set self) (valid_set self) (test_set self)).
Proof.
  intros Hsome Hdyn Hlt. unfold get_trajectory_split.
  rewrite bool_decide_eq_false_2 by done. rewrite Hdyn.
  unfold update_split. rewrite bool_decide_eq_true_2 by lia.
  cbn [config n_on_disk train_set valid_set test_set].
  destruct (update_sizes _ _) as [[N_train N_valid] N_test].
  unfold get_trajectories, get_selection, torch_randperm.
  cbn [config n_on_disk train_set valid_set test_set].
  rewrite bool_decide_eq_true_2 by lia.
  by rewrite bool_decide_eq_false_2 by lia.
Qed.

(** *** Repeated calls on a growing directory *)

Lemma get_trajectory_count_mono dir dir' :
  dir ⊆ dir' → get_trajectory_count dir ≤ get_trajectory_count dir'.
Proof.
  intros Hsub. unfold get_trajectory_count, file_utils.numeric_file_count.
  apply inj_le, map_subseteq_size.
  by apply map_filter_subseteq_mono.
Qed.

Lemma loaded_from_weaken dir dir' (selection : list Z) (data : list Tensor) :
  dir ⊆ dir' → loaded_from dir selection data → loaded_from dir' selection data.
Proof.
  intros Hsub Hl. eapply Forall2_impl; [exact Hl|].
  intros i t Hi. simpl in *. by eapply lookup_weaken.
Qed.

Lemma split_of_weaken dir dir' self (i_train i_valid i_test : list Z) :
  dir ⊆ dir' →
  split_of dir self i_train i_valid i_test →
  split_of dir' self i_train i_valid i_test.
Proof.
  intros Hsub (train & valid & test & H1 & H2 & H3 & L1 & L2 & L3 & Hrest).
  exists train, valid, test.
  do 3 (split; [done|]). do 3 (split; [by eapply loaded_from_weaken|]).
  exact Hrest.
Qed.

(** In dynamic mode a call on a manager that has a split records the count
    of the directory, whether it succeeds or not, and never changes the
    configuration. *)
Lemma get_trajectory_split_records randperm dir self :
  train_set self ≠ None →
  truthy (DataConfig.dynamic_updates_from (config self)) = true →
  n_on_disk (get_trajectory_split randperm dir self).2 = get_trajectory_count dir
  ∧ config (get_trajectory_split randperm dir self).2 = config self.
Proof.
  intros Hsome Hdyn. unfold get_trajectory_split.
  rewrite bool_decide_eq_false_2 by done. rewrite Hdyn.
  unfold update_split. case_bool_decide as Hcount.
  - cbn [config n_on_disk train_set valid_set test_set].
    destruct (update_sizes _ _) as [[N_train N_valid] N_test].
    destruct (get_trajectories _ _ _ _ _ _) as [data|e]; [|done].
    destruct (cut3 _ _ _) as [[a b] c].
    destruct (train_set self) as [train|]; [|done].
    destruct (valid_set self) as [valid|]; [|done].
    destruct (test_set self) as [test|]; [|done].
    destruct (extend_set train a) as [[?|?] train']; [|done].
    cbn [config n_on_disk train_set valid_set test_set].
    destruct (extend_set valid b) as [[?|?] valid']; [|done].
    cbn [config n_on_disk train_set valid_set test_set].
    by destruct (extend_set test c) as [[?|?] test'].
  - cbn [fst snd]. by split.
Qed.

(** One more call on a directory that has grown. *)
Lemma get_trajectory_split_step randperm dir dir' self
    (i_train i_valid i_test : list Z) :
  let cfg := config self in
  let self' := (get_trajectory_split randperm dir' self).2 in
  truthy (DataConfig.dynamic_updates_from cfg) = true →
  (0 <= DataConfig.train_fraction cfg <= 1)%Q →
  (0 <= DataConfig.valid_fraction cfg <= 1)%Q →
  (0 <= DataConfig.test_fraction cfg <= 1)%Q →
  (∀ n, randperm n ≡ₚ seqZ 0 n) →
  split_of dir self i_train i_valid i_test →
  n_on_disk self = get_trajectory_count dir →
  dir ⊆ dir' →
  holds_range dir' 0 (get_trajectory_count dir') →
  (∀ i t, dir' !! file_utils.trajectory_basename i = Some t → sliceable cfg t) →
  ∃ j_train j_valid j_test,
    i_train `prefix_of` j_train
    ∧ i_valid `prefix_of` j_valid
    ∧ i_test `prefix_of` j_test
    ∧ split_of dir' self' j_train j_valid j_test
    ∧ n_on_disk self' = get_trajectory_count dir'
    ∧ config self' = cfg.
Proof.
  intros cfg self' Hdyn Htrain Hvalid Htest Hperm Hsplit Hcount Hsub Hrange Hslice.
  assert (train_set self ≠ None) as Hsome.
  { destruct Hsplit as (train & _ & _ & -> & _). done. }
  destruct (get_trajectory_split_records randperm dir' self Hsome Hdyn)
    as [Hn Hcfg].
  pose proof (get_trajectory_count_mono dir dir' Hsub) as Hmono.
  pose proof (get_trajectory_count_nonneg dir) as Hnonneg.
  assert (0 ≤ n_on_disk self) as A1 by lia.
  assert (n_on_disk self ≤ get_trajectory_count dir') as A2 by lia.
  assert (holds_range dir' (n_on_disk self) (get_trajectory_count dir')) as A3.
  { intros i Hi. apply Hrange. lia. }
  destruct (get_trajectory_split_preserves randperm dir' self
              i_train i_valid i_test
              (split_of_weaken _ _ _ _ _ _ Hsub Hsplit) Hdyn A1 A2
              Htrain Hvalid Htest (Hperm _) A3 (λ i t _, Hslice i t))
    as (j1 & j2 & j3 & P1 & P2 & P3 & Hsplit').
  exists j1, j2, j3. by do 5 (split; [done|]).
Qed.

Lemma last_cons_default {A} (x : A) (l : list A) (y : A) :
  default y (last (x :: l)) = default x (last l).
Proof. rewrite last_cons. by destruct (last l). Qed.

(** Any number of further calls. *)
Lemma get_trajectory_split_fold randperm (cfg : DataConfig.t)
    (later : list Dir) (prev : Dir) self (i_train i_valid i_test : list Z) :
  let call self dir := (get_trajectory_split randperm dir self).2 in
  config self = cfg →
  truthy (DataConfig.dynamic_updates_from cfg) = true →
  (0 <= DataConfig.train_fraction cfg <= 1)%Q →
  (0 <= DataConfig.valid_fraction cfg <= 1)%Q →
  (0 <= DataConfig.test_fraction cfg <= 1)%Q →
  (∀ n, randperm n ≡ₚ seqZ 0 n) →
  split_of prev self i_train i_valid i_test →
  n_on_disk self = get_trajectory_count prev →
  Sorted (⊆) (prev :: later) →
  Forall (λ dir,
    holds_range dir 0 (get_trajectory_count dir)
    ∧ ∀ i t, dir !! file_utils.trajectory_basename i = Some t → sliceable cfg t)
    later →
  ∃ j_train j_valid j_test,
    i_train `prefix_of` j_train
    ∧ i_valid `prefix_of` j_valid
    ∧ i_test `prefix_of` j_test
    ∧ split_of (default prev (last later)) (foldl call self later)
        j_train j_valid j_test
    ∧ n_on_disk (foldl call self later)
      = get_trajectory_count (default prev (last later)).
Proof.
  intros call Hcfg Hdyn Htrain Hvalid Htest Hperm.
  revert prev self i_train i_valid i_test Hcfg.
  induction later as [|dir rest IH];
    intros prev self i1 i2 i3 Hcfg Hsplit Hn Hsorted Hgood.
  - exists i1, i2, i3. by do 4 (split; [done|]).
  - apply Sorted_inv in Hsorted as [Hsorted Hhd].
    apply HdRel_inv in Hhd.
    apply Forall_cons in Hgood as [[Hrange Hslice] Hgood].
    destruct (get_trajectory_split_step randperm prev dir self i1 i2 i3)
      as (j1 & j2 & j3 & P1 & P2 & P3 & Hsplit' & Hn' & Hcfg');
      [rewrite ?Hcfg; assumption..|].
    assert (config (call self dir) = cfg) as Hcfg'' by (by rewrite <-Hcfg).
    destruct (IH dir (call self dir) j1 j2 j3 Hcfg'' Hsplit' Hn' Hsorted Hgood)
      as (k1 & k2 & k3 & Q1 & Q2 & Q3 & Hsplit'' & Hn'').
    exists k1, k2, k3.
    rewrite last_cons_default. cbn [foldl].
    do 3 (split; [by etrans|]). by split.
Qed.


(** X15. A manager whose first split failed after the train set had been
    built (a trajectory of the valid or test block was too short for the
    slicer) never recovers: it has a train set and no test set, and every
    later call of [get_trajectory_split], on any directory and in any mode,
    raises and leaves it in that state; the split is not attempted again. *)
Theorem get_trajectory_split_never_recovers randperm dir self :
  train_set self ≠ None →
  test_set self = None →
  ∃ e, (get_trajectory_split randperm dir self).1 = Raise e
       ∧ train_set (get_trajectory_split randperm dir self).2 ≠ None
       ∧ test_set (get_trajectory_split randperm dir self).2 = None.
Proof.
  intros Htrain Htest.
  assert (return_sets self = Raise AttributeError) as Hreturn.
  { unfold return_sets. rewrite Htest.
    destruct (train_set self); [|done]. by destruct (valid_set self). }
  unfold get_trajectory_split. rewrite bool_decide_eq_false_2 by done.
  destruct (truthy _).
  - unfold update_split. case_bool_decide as Hcount.
    + cbn [config n_on_disk train_set valid_set test_set].
      destruct (update_sizes _ _) as [[N_train N_valid] N_test].
      destruct (get_trajectories _ _ _ _ _ _) as [data|e].
      * destruct (cut3 _ _ _) as [[a b] c]. rewrite Htest.
        destruct (train_set self) as [train|] eqn:Ht; [|done].
        exists AttributeError. by destruct (valid_set self).
      * by exists e.
    + exists AttributeError. by rewrite Hreturn.
  - exists AttributeError. by rewrite Hreturn.
Qed.

End ManagerMore.

(** ** The manager: a generation that cannot end *)

Section GenerateMore.
Context {State : Type}.
Local Abbreviation Tensor := (list State).
Local Abbreviation Dir := (gmap string (list State)).
Context (sample : nat → Z → Z → Tensor) (external : nat → Dir → Dir).
Context (cfg : DataConfig.t) (n_pop traj_len : Z).
Implicit Types (st : generate_state (State := State)) (dir : Dir).

(** Saving over files that exist keeps the count and the names. *)
Lemma save_each_overwrite (traj_i : list Tensor) (c : Z) (indices : list Z)
    dir (saved : list Z) :
  (∀ i, i ∈ indices → is_Some (dir !! file_utils.trajectory_basename (c + i))) →
  let dir' := (save_each traj_i c indices dir saved).2.1 in
  get_trajectory_count dir' = get_trajectory_count dir
  ∧ ∀ name, is_Some (dir !! name) → is_Some (dir' !! name).
Proof.
  revert dir saved. induction indices as [|i rest IH]; intros dir saved Hall; [done|].
  simpl. destruct (py_getitem traj_i i) as [t|e]; [|done].
  assert (is_Some (dir !! file_utils.trajectory_basename (c + i))) as [old Hold]
    by (apply Hall; left).
  destruct (IH (torch_save t (c + i) dir) (saved ++ [c + i])) as [Hcount Hnames].
  { intros j Hj. unfold torch_save. apply lookup_insert_is_Some'. right.
    apply Hall. by right. }
  split.
  - rewrite Hcount. unfold get_trajectory_count, torch_save.
    rewrite numeric_file_count_insert.
    rewrite (bool_decide_eq_false_2 (dir !! _ = None)) by congruence.
    simpl. lia.
  - intros name Hname. apply Hnames. unfold torch_save.
    apply lookup_insert_is_Some'. by right.
Qed.

Lemma generate_loop_never_ends (fuel k : nat) st :
  (∀ k dir, external k dir = dir) →
  is_Some (DataConfig.generation_config cfg) →
  1 ≤ traj_len →
  let c := get_trajectory_count (gen_dir st) in
  head_inv n_pop st →
  n_generated st = c →
  c < n_pop →
  n_set st ≤ 30 →
  (∀ i, c ≤ i < c + Z.min 30 (n_pop - c) →
        is_Some (gen_dir st !! file_utils.trajectory_basename i)) →
  generate_loop fuel sample external cfg n_pop traj_len k st = None.
Proof.
  intros Hext Hgcfg Hlen. revert k st.
  induction fuel as [|fuel IH]; intros k st c Hinv Hn Hlt Hset Hfiles; [done|].
  simpl. rewrite bool_decide_eq_true_2 by lia.
  destruct (generate_body_spec sample external cfg n_pop traj_len k st)
    as [_ Hcont]; [done|done|done|lia|].
  rewrite Hext in Hcont. fold c in Hcont.
  destruct Hcont as (-> & Hinv' & _); [lia|].
  set (n_set' := Z.min (n_set st) (n_pop - c)) in *.
  set (traj_i := sample k traj_len <$> range 0 (n_set st)) in *.
  destruct (save_each_overwrite traj_i c (range 0 n_set') (gen_dir st) (saved st))
    as [Hcount Hnames].
  { intros i Hi. apply Hfiles. unfold range in Hi.
    apply elem_of_seqZ in Hi. lia. }
  apply IH; simpl.
  - done.
  - by rewrite Hcount.
  - rewrite Hcount. done.
  - lia.
  - rewrite Hcount. intros i Hi. by apply Hnames, Hfiles.
Qed.

(** X16. When the data directory counts fewer files than [n_pop] and
    already holds a file at each index that the loop is about to write
    ([count .. count + min(30, n_pop - count) - 1], as happens when a file
    with a smaller index is missing), [generate] writes over these files,
    the count never changes, and the loop does not end: with no other
    writer, no number of turns brings it to a result. *)
Theorem generate_never_ends dir :
  (∀ k dir, external k dir = dir) →
  (∃ gcfg, DataConfig.generation_config cfg = Some gcfg
           ∧ n_pop = DataGenerationConfig.n_pop gcfg
           ∧ traj_len = DataGenerationConfig.traj_len gcfg) →
  1 ≤ traj_len →
  let count := get_trajectory_count dir in
  count < n_pop →
  (∀ i, count ≤ i < count + Z.min 30 (n_pop - count) →
        is_Some (dir !! file_utils.trajectory_basename i)) →
  ∀ fuel : nat, generate fuel sample external cfg dir = None.
Proof.
  intros Hext (gcfg & Hgcfg & Hn_pop & Htraj_len) Hlen count Hlt Hfiles fuel.
  unfold generate. rewrite Hgcfg. cbv zeta. rewrite <-Hn_pop, <-Htraj_len.
  apply generate_loop_never_ends; simpl; [done|by eexists|done| |done|done|lia|done].
  pose proof (get_trajectory_count_nonneg dir).
  split_and!; simpl; [lia|by left|done|].
  intros i Hi. by apply elem_of_nil in Hi.
Qed.

End GenerateMore.

(** ** drake_utils: bodies and collision geometries *)

Section DrakeMore.
Import drake_utils.
Context {GeometryId CoulombFriction : Type} `{EqDecision GeometryId}.
Implicit Types (inspector : SceneGraphInspector GeometryId CoulombFriction)
  (g : GeometryId) (geometry_ids : list GeometryId).

Lemma list_index_Some g geometry_ids (i : Z) :
  list_index g geometry_ids = Some i →
  0 ≤ i ∧ geometry_ids !! Z.to_nat i = Some g.
Proof.
  revert i. induction geometry_ids as [|y rest IH]; intros i Hi; [done|].
  simpl in Hi. case_bool_decide as Hy.
  - injection Hi as <-. by subst y.
  - destruct (list_index g rest) as [j|] eqn:Hj; [|done].
    injection Hi as <-. destruct (IH j eq_refl) as [Hpos Hlook].
    split; [lia|]. by rewrite Z2Nat.inj_succ.
Qed.

Lemma list_index_elem_of g geometry_ids :
  g ∈ geometry_ids → is_Some (list_index g geometry_ids).
Proof.
  induction geometry_ids as [|y rest IH]; intros Hin; [by apply elem_of_nil in Hin|].
  simpl. case_bool_decide as Hy; [by eexists|].
  apply elem_of_cons in Hin as [->|Hin]; [done|].
  destruct (IH Hin) as [j ->]. by eexists.
Qed.

Lemma add_id_spec geometry_ids g :
  NoDup geometry_ids →
  NoDup (add_id geometry_ids g)
  ∧ geometry_ids `prefix_of` add_id geometry_ids g
  ∧ ∀ h, h ∈ add_id geometry_ids g ↔ h ∈ geometry_ids ∨ h = g.
Proof.
  intros Hnd. unfold add_id. case_bool_decide as Hin.
  - split; [done|]. split; [done|]. intros h. split; [by left|].
    by intros [?| ->].
  - split.
    { apply NoDup_app. split; [done|]. split; [|apply NoDup_singleton].
      intros h Hh Hg. apply list_elem_of_singleton in Hg. by subst h. }
    split; [by apply prefix_app_r|].
    intros h. rewrite elem_of_app, list_elem_of_singleton. done.
Qed.

Lemma decodes_prefix geometry_ids (longer : list GeometryId)
    (candidate : GeometryId * GeometryId) (pair : Z * Z) :
  geometry_ids `prefix_of` longer →
  decodes geometry_ids candidate pair → decodes longer candidate pair.
Proof.
  intros Hpre (H1 & H2 & H3 & H4).
  split; [done|]. split; [done|].
  split; eapply prefix_lookup_Some; done.
Qed.

(** The loop over the candidate pairs, from any list without repetition. *)
Lemma add_candidates_spec (candidates : list (GeometryId * GeometryId))
    geometry_ids (geometry_pairs : list (Z * Z)) :
  NoDup geometry_ids →
  ∃ (all_ids : list GeometryId) (news : list (Z * Z)),
    foldl add_candidate (Returned (geometry_ids, geometry_pairs)) candidates
    = Returned (all_ids, geometry_pairs ++ news)
    ∧ NoDup all_ids
    ∧ geometry_ids `prefix_of` all_ids
    ∧ (∀ g, g ∈ all_ids ↔ g ∈ geometry_ids ∨ candidate_id candidates g)
    ∧ Forall2 (decodes all_ids) candidates news.
Proof.
  revert geometry_ids geometry_pairs.
  induction candidates as [|[a b] rest IH]; intros geometry_ids geometry_pairs Hnd.
  - exists geometry_ids, []. rewrite app_nil_r. split; [done|].
    split; [done|]. split; [done|]. split; [|constructor].
    intros g. split; [by left|]. intros [?|(c & Hc & _)]; [done|].
    by apply elem_of_nil in Hc.
  - cbn [foldl]. unfold add_candidate at 2. cbn [foldl].
    destruct (add_id_spec geometry_ids a Hnd) as (Hnd1 & Hpre1 & Hin1).
    destruct (add_id_spec (add_id geometry_ids a) b Hnd1) as (Hnd2 & Hpre2 & Hin2).
    set (ids2 := add_id (add_id geometry_ids a) b) in *.
    assert (a ∈ ids2) as Ha by (apply Hin2; left; apply Hin1; by right).
    assert (b ∈ ids2) as Hb by (apply Hin2; by right).
    destruct (list_index_elem_of a ids2 Ha) as [ia Hia].
    destruct (list_index_elem_of b ids2 Hb) as [ib Hib].
    rewrite Hia, Hib.
    destruct (IH ids2 (geometry_pairs ++ [(ia, ib)]) Hnd2)
      as (all_ids & news & Hrun & Hnd' & Hpre' & Hin' & Hdec).
    exists all_ids, ((ia, ib) :: news).
    rewrite Hrun, <-app_assoc. split; [done|]. split; [done|].
    split; [by etrans; [|exact Hpre']; etrans|].
    split.
    + intros g. rewrite Hin', Hin2, Hin1. unfold candidate_id. split.
      * intros [[[?| ->]| ->]|(c & Hc & Hg)].
        -- by left.
        -- right. exists (a, b). split; [left|by left].
        -- right. exists (a, b). split; [left|by right].
        -- right. exists c. split; [by right|done].
      * intros [?|(c & Hc & Hg)]; [by left; left; left|].
        apply elem_of_cons in Hc as [->|Hc].
        -- destruct Hg as [->| ->]; [left; left; by right|left; by right].
        -- right. by exists c.
    + constructor; [|done]. eapply decodes_prefix; [exact Hpre'|].
      destruct (list_index_Some a ids2 ia Hia) as [? ?].
      destruct (list_index_Some b ids2 ib Hib) as [? ?].
      by split_and!.
Qed.

Lemma collect_frictions_ok inspector geometry_ids :
  (∀ g, g ∈ geometry_ids → is_Some (GetFriction inspector g)) →
  ∃ coulomb_frictions,
    collect_frictions inspector geometry_ids = Returned coulomb_frictions
    ∧ Forall2 (λ g f, GetFriction inspector g = Some f)
        geometry_ids coulomb_frictions.
Proof.
  induction geometry_ids as [|g rest IH]; intros Hall.
  - exists []. by split; [|constructor].
  - destruct (Hall g) as [f Hf]; [left|].
    destruct IH as (fs & Hfs & Hall2); [intros h Hh; apply Hall; by right|].
    exists (f :: fs). simpl. rewrite Hf, Hfs. split; [done|]. by constructor.
Qed.

Lemma collect_frictions_raised inspector geometry_ids (e : error) :
  collect_frictions inspector geometry_ids = Raised e →
  e = InspectorError ∧ ∃ g, g ∈ geometry_ids ∧ GetFriction inspector g = None.
Proof.
  induction geometry_ids as [|g rest IH]; [done|]. simpl.
  destruct (GetFriction inspector g) as [f|] eqn:Hf.
  - destruct (collect_frictions inspector rest) as [fs|e'] eqn:Hrest; [done|].
    intros [= <-]. destruct (IH eq_refl) as [-> (h & Hh & Hnone)].
    split; [done|]. exists h. split; [by right|done].
  - intros [= <-]. split; [done|]. exists g. split; [left|done].
Qed.

(** X17. When the inspector has a friction for each geometry of a candidate
    pair, [get_collision_geometry_set] returns: its [ids] are the geometries
    of the candidate pairs, each once; [frictions] are their frictions, in
    the same order; and [collision_candidates] has one pair of positions per
    candidate pair, in the same order, which names the two geometries of
    that candidate in [ids]. *)
Theorem get_collision_geometry_set_spec inspector :
  let candidates := GetCollisionCandidates inspector in
  (∀ g, candidate_id candidates g → is_Some (GetFriction inspector g)) →
  ∃ set,
    get_collision_geometry_set inspector = Returned set
    ∧ NoDup (ids set)
    ∧ (∀ g, g ∈ ids set ↔ candidate_id candidates g)
    ∧ Forall2 (λ g f, GetFriction inspector g = Some f) (ids set) (frictions set)
    ∧ Forall2 (decodes (ids set)) candidates (collision_candidates set).
Proof.
  intros candidates Hfriction. unfold get_collision_geometry_set.
  destruct (add_candidates_spec candidates [] [] (NoDup_nil_2))
    as (all_ids & news & Hrun & Hnd & _ & Hin & Hdec).
  fold candidates. rewrite Hrun.
  assert (∀ g, g ∈ all_ids ↔ candidate_id candidates g) as Hin'.
  { intros g. rewrite Hin. split; [|by right].
    intros [Hnil|?]; [by apply elem_of_nil in Hnil|done]. }
  destruct (collect_frictions_ok inspector all_ids) as (fs & -> & Hfs).
  { intros g Hg. by apply Hfriction, Hin'. }
  eexists. split; [done|]. simpl. by split_and!.
Qed.

(** X18. [get_collision_geometry_set] never fails in its own lookups
    ([list.index] always finds the geometry): when it raises, the error
    comes from the inspector, which has no friction for a geometry of some
    candidate pair. *)
Theorem get_collision_geometry_set_raises inspector (e : error) :
  get_collision_geometry_set inspector = Raised e →
  e = InspectorError
  ∧ ∃ g, candidate_id (GetCollisionCandidates inspector) g
         ∧ GetFriction inspector g = None.
Proof.
  unfold get_collision_geometry_set.
  destruct (add_candidates_spec (GetCollisionCandidates inspector) [] []
              (NoDup_nil_2))
    as (all_ids & news & Hrun & Hnd & _ & Hin & Hdec).
  rewrite Hrun.
  destruct (collect_frictions inspector all_ids) as [fs|e'] eqn:Hfs; [done|].
  intros [= <-]. destruct (collect_frictions_raised _ _ _ Hfs) as [-> (g & Hg & Hnone)].
  split; [done|]. exists g. split; [|done].
  apply Hin in Hg as [Hnil|?]; [by apply elem_of_nil in Hnil|done].
Qed.

(** X19. The numbering of the geometries is stable under more candidates:
    when the inspector yields further candidate pairs after the same first
    ones, the old [ids], [frictions] and [collision_candidates] are
    prefixes of the new ones, so that positions handed out stay valid. *)
Theorem get_collision_geometry_set_prefix
    (first more : list (GeometryId * GeometryId))
    (friction_of : GeometryId → option CoulombFriction) set set' :
  get_collision_geometry_set (mkInspector first friction_of) = Returned set →
  get_collision_geometry_set (mkInspector (first ++ more) friction_of)
  = Returned set' →
  ids set `prefix_of` ids set'
  ∧ frictions set `prefix_of` frictions set'
  ∧ collision_candidates set `prefix_of` collision_candidates set'.
Proof.
  unfold get_collision_geometry_set. cbn [GetCollisionCandidates GetFriction].
  rewrite foldl_app.
  destruct (add_candidates_spec first [] [] (NoDup_nil_2))
    as (ids1 & news1 & -> & Hnd1 & _ & _ & _).
  destruct (add_candidates_spec more ids1 ([] ++ news1) Hnd1)
    as (ids2 & news2 & -> & Hnd2 & [extra ->] & _ & _).
  destruct (collect_frictions (mkInspector first friction_of) ids1)
    as [fs1|] eqn:H1; [|done].
  destruct (collect_frictions (mkInspector (first ++ more) friction_of)
              (ids1 ++ extra)) as [fs2|] eqn:H2; [|done].
  intros [= <-] [= <-]. simpl.
  split; [by apply prefix_app_r|]. split; [|by apply prefix_app_r].
  clear -H1 H2. revert fs1 fs2 H1 H2.
  induction ids1 as [|g rest IH]; intros fs1 fs2 H1 H2.
  - injection H1 as <-. apply prefix_nil.
  - simpl in H1, H2. destruct (friction_of g) as [f|]; [|done].
    destruct (collect_frictions (mkInspector first friction_of) rest)
      as [r1|]; [|done].
    destruct (collect_frictions (mkInspector (first ++ more) friction_of)
                (rest ++ extra)) as [r2|]; [|done].
    injection H1 as <-. injection H2 as <-.
    apply prefix_cons. by apply IH.
Qed.

Lemma unique_body_identifier_split (m1 m2 b1 b2 : string) :
  no_underscore m1 = true → no_underscore m2 = true →
  m1 +:+ "_" +:+ b1 = m2 +:+ "_" +:+ b2 → m1 = m2 ∧ b1 = b2.
Proof.
  revert m2. induction m1 as [|c m1 IH]; intros [|d m2] H1 H2 Heq.
  - change (String "_" b1 = String "_" b2) in Heq. by injection Heq as ->.
  - change (String "_" b1 = String d (m2 +:+ "_" +:+ b2)) in Heq.
    injection Heq as <- _. done.
  - change (String c (m1 +:+ "_" +:+ b1) = String "_" b2) in Heq.
    injection Heq as -> _. done.
  - change (String c (m1 +:+ "_" +:+ b1) = String d (m2 +:+ "_" +:+ b2)) in Heq.
    injection Heq as -> Heq. simpl in H1, H2.
    apply andb_true_iff in H1 as [_ H1]. apply andb_true_iff in H2 as [_ H2].
    destruct (IH m2 H1 H2 Heq) as [-> ->]. done.
Qed.

(** X20. [unique_body_identifier] tells bodies apart as far as their names
    do: two bodies whose model instances have names without an underscore
    get the same identifier only when the names of their model instances
    and their own names are equal. *)
Theorem unique_body_identifier_inj (plant : MultibodyPlant) (a b : Body) :
  no_underscore (GetModelInstanceName plant (model_instance a)) = true →
  no_underscore (GetModelInstanceName plant (model_instance b)) = true →
  unique_body_identifier plant a = unique_body_identifier plant b →
  GetModelInstanceName plant (model_instance a)
  = GetModelInstanceName plant (model_instance b)
  ∧ name a = name b.
Proof. intros Ha Hb Heq. by apply unique_body_identifier_split. Qed.

Lemma string_app_inj_l (m x y : string) : m +:+ x = m +:+ y → x = y.
Proof.
  induction m as [|c m IH]; [done|].
  change (String c (m +:+ x) = String c (m +:+ y) → x = y).
  intros [= Heq]. by apply IH.
Qed.

Lemma elem_of_concat {A} (x : A) (ls : list (list A)) :
  x ∈ concat ls ↔ ∃ l, x ∈ l ∧ l ∈ ls.
Proof.
  induction ls as [|k ls IH]; simpl.
  - split; [by intros ?%elem_of_nil|]. by intros (l & _ & ?%elem_of_nil).
  - rewrite elem_of_app, IH. split.
    + intros [?|(l & ? & ?)]; [exists k; split; [done|left]|].
      exists l. split; [done|by right].
    + intros (l & Hx & [->|Hl]%elem_of_cons); [by left|].
      right. by exists l.
Qed.

Lemma get_all_bodies_concat (plant : MultibodyPlant) (indices : list Z) :
  (get_all_bodies plant indices).1
  = concat (get_bodies_in_model_instance plant <$> indices).
Proof.
  unfold get_all_bodies. cbn [fst].
  assert (∀ bodies,
            foldl (λ bodies i, bodies ++ get_bodies_in_model_instance plant i)
              bodies indices
            = bodies ++ concat (get_bodies_in_model_instance plant <$> indices))
    as Hfold.
  { induction indices as [|i rest IH]; intros bodies; csimpl.
    - by rewrite app_nil_r.
    - by rewrite IH, app_assoc. }
  apply (Hfold []).
Qed.

(** X21. The identifiers that [get_all_bodies] returns are those of the
    bodies of the given model instances, in the order of the model
    instances and of their bodies, and they are pairwise different
    whenever no model instance is listed twice, no name of a model instance
    holds an underscore, no two model instances share a name and no two
    bodies of one model instance do. *)
Theorem get_all_bodies_unique (plant : MultibodyPlant) (indices : list Z) :
  NoDup indices →
  (∀ i, i ∈ indices → no_underscore (GetModelInstanceName plant i) = true) →
  well_named plant indices →
  (get_all_bodies plant indices).1
  = concat (get_bodies_in_model_instance plant <$> indices)
  ∧ (get_all_bodies plant indices).2
    = unique_body_identifier plant <$> (get_all_bodies plant indices).1
  ∧ NoDup (get_all_bodies plant indices).2.
Proof.
  intros Hnd Hplain [Hnames Hbodies].
  split; [apply get_all_bodies_concat|]. split; [done|].
  change ((get_all_bodies plant indices).2)
    with (unique_body_identifier plant <$> (get_all_bodies plant indices).1).
  rewrite get_all_bodies_concat.
  assert (∀ i body, i ∈ indices →
            body ∈ get_bodies_in_model_instance plant i →
            unique_body_identifier plant body
            = GetModelInstanceName plant i +:+ "_" +:+ name body) as Hid.
  { intros i body Hi Hbody. destruct (Hbodies i Hi) as [_ Hinst].
    unfold unique_body_identifier.
    by rewrite (proj1 (Forall_forall _ _) Hinst body Hbody). }
  assert (∀ rest, rest ⊆ indices → NoDup rest →
            NoDup (unique_body_identifier plant
                     <$> concat (get_bodies_in_model_instance plant <$> rest)))
    as Hgeneral.
  { clear Hnd. induction rest as [|i rest IH]; intros Hsub Hnd; csimpl.
    - constructor.
    - apply NoDup_cons in Hnd as [Hi Hnd].
      assert (i ∈ indices) as Hin by (apply Hsub; left).
      assert (rest ⊆ indices) as Hsub' by (intros j Hj; apply Hsub; by right).
      rewrite fmap_app. apply NoDup_app. split; [|split; [|by apply IH]].
      + destruct (Hbodies i Hin) as [Hnd_names _].
        unfold get_body_names_in_model_instance in Hnd_names.
        apply (NoDup_fmap_2_strong _); [|by eapply NoDup_fmap_1].
        intros a b Ha Hb Heq.
        rewrite (Hid i a Hin Ha), (Hid i b Hin Hb) in Heq.
        apply string_app_inj_l in Heq.
        change (String "_" (name a) = String "_" (name b)) in Heq.
        injection Heq as Heq.
        assert (∀ l : list Body, NoDup (name <$> l) → a ∈ l → b ∈ l → a = b)
          as Hinj.
        { clear -Heq. induction l as [|c l IHl]; intros Hl Ha Hb.
          - by apply elem_of_nil in Ha.
          - csimpl in Hl. apply NoDup_cons in Hl as [Hc Hl].
            apply elem_of_cons in Ha as [->|Ha];
              apply elem_of_cons in Hb as [->|Hb]; [done| | |by apply IHl].
            + exfalso. apply Hc. rewrite Heq. by apply list_elem_of_fmap_2.
            + exfalso. apply Hc. rewrite <-Heq. by apply list_elem_of_fmap_2. }
        by apply (Hinj (get_bodies_in_model_instance plant i)).
      + intros x Hx Hx'.
        apply list_elem_of_fmap in Hx as (a & -> & Ha).
        apply list_elem_of_fmap in Hx' as (b & Heq & Hb).
        apply elem_of_concat in Hb as (bodies & Hb & Hbodies').
        apply list_elem_of_fmap in Hbodies' as (j & -> & Hj).
        rewrite (Hid i a Hin Ha), (Hid j b (Hsub' j Hj) Hb) in Heq.
        apply unique_body_identifier_split in Heq as [Heq _];
          [|by apply Hplain|by apply Hplain, Hsub'].
        apply Hnames in Heq; [|done|by apply Hsub']. by subst j. }
  by apply Hgeneral.
Qed.

(** X22. [get_all_inertial_bodies] returns the bodies of the given model
    instances other than the world, in order, with their identifiers: when
    the plant lists every body under its own model instance, no body of the
    world is returned, and none of another listed model instance is left
    out. *)
Theorem get_all_inertial_bodies_no_world (world : Z) (plant : MultibodyPlant)
    (indices : list Z) (body : Body) :
  (∀ i, i ∈ indices →
        Forall (λ body, model_instance body = i)
          (get_bodies_in_model_instance plant i)) →
  body ∈ (get_all_inertial_bodies world plant indices).1
  ↔ model_instance body ≠ world
    ∧ body ∈ (get_all_bodies plant indices).1.
Proof.
  intros Hinst. unfold get_all_inertial_bodies.
  rewrite !get_all_bodies_concat, !elem_of_concat. split.
  - intros (bodies & Hbody & Hbodies).
    apply list_elem_of_fmap in Hbodies as (i & -> & Hi).
    apply list_elem_of_filter in Hi as [Hworld Hi].
    pose proof (proj1 (Forall_forall _ _) (Hinst i Hi) body Hbody) as Hmi.
    split; [by rewrite Hmi|].
    exists (get_bodies_in_model_instance plant i). split; [done|].
    by apply list_elem_of_fmap_2.
  - intros (Hworld & bodies & Hbody & Hbodies).
    apply list_elem_of_fmap in Hbodies as (i & -> & Hi).
    pose proof (proj1 (Forall_forall _ _) (Hinst i Hi) body Hbody) as Hmi.
    exists (get_bodies_in_model_instance plant i). split; [done|].
    apply list_elem_of_fmap_2, list_elem_of_filter. split; [by rewrite <-Hmi|done].
Qed.

End DrakeMore.

(** * Further examples *)

Section SlicerMoreExamples.

Lemma TrajectorySliceDataset_init_succeeds_iff_witness :
  (∃ self, TrajectorySliceDataset_init [ramp 0 5] 1 2 2 = Ok self
           ∧ t_skip self = 1 ∧ t_history self = 2 ∧ t_prediction self = 2)
  ∧ TrajectorySliceDataset_init [ramp 0 5] 1 3 2 = Raise AssertionError
  ∧ TrajectorySliceDataset_init [ramp 0 2] 1 2 2 = Raise AssertionError.
Proof.
  split_and!.
  - apply (TrajectorySliceDataset_init_succeeds_iff [ramp 0 5] 1 2 2).
    split; [lia|]. repeat constructor. simpl. lia.
  - apply (TrajectorySliceDataset_init_succeeds_iff [ramp 0 5] 1 3 2).
    intros [Hwindow _]. lia.
  - apply (TrajectorySliceDataset_init_succeeds_iff [ramp 0 2] 1 2 2).
    intros [_ Hlong]. apply Forall_cons in Hlong as [Hlong _]. simpl in Hlong. lia.
Defined.

Lemma TrajectorySliceDataset_init_slices_witness :
  TrajectorySliceDataset_init [ramp 0 5] 1 2 2 = Ok slicer_after_A
  ∧ in_slices slicer_after_A = [[0; 1]; [1; 2]]
  ∧ out_slices slicer_after_A = [[2; 3]; [3; 4]]
  ∧ len slicer_after_A = 2.
Proof.
  assert (TrajectorySliceDataset_init [ramp 0 5] 1 2 2 = Ok slicer_after_A)
    as Hinit by reflexivity.
  split; [exact Hinit|].
  destruct (TrajectorySliceDataset_init_slices [ramp 0 5] 1 2 2 slicer_after_A
              Hinit) as (Hin & Hout & Hlen).
  split; [by rewrite Hin|]. split; [by rewrite Hout|]. by rewrite Hlen.
Defined.

Lemma getitem_window_lengths_witness :
  TrajectorySliceDataset_init [ramp 0 5] 1 2 2 = Ok slicer_after_A
  ∧ getitem (add_each [ramp 10 6; ramp 20 1] slicer_after_A).2 3
    = Ok ([11; 12], [13; 14])
  ∧ Z.of_nat (length [11; 12]) = 2 ∧ Z.of_nat (length [13; 14]) = 2.
Proof.
  assert (TrajectorySliceDataset_init [ramp 0 5] 1 2 2 = Ok slicer_after_A)
    as Hinit by reflexivity.
  assert (getitem (add_each [ramp 10 6; ramp 20 1] slicer_after_A).2 3
          = Ok ([11; 12], [13; 14])) as Hget by reflexivity.
  split; [exact Hinit|]. split; [exact Hget|].
  apply (getitem_window_lengths [ramp 0 5] [ramp 10 6; ramp 20 1] 1 2 2 3
           slicer_after_A [11; 12] [13; 14] Hinit); [lia|lia|exact Hget].
Defined.

Lemma getitem_index_range_witness :
  (∃ pair, getitem slicer_after_A 1 = Ok pair)
  ∧ getitem slicer_after_A (-1) = getitem slicer_after_A 1
  ∧ getitem slicer_after_A 2 = Raise IndexError
  ∧ getitem slicer_after_A (-3) = Raise IndexError.
Proof.
  assert (length (in_slices slicer_after_A) = length (out_slices slicer_after_A))
    as Hpaired by reflexivity.
  assert (len slicer_after_A = 2) as Hlen by reflexivity.
  split_and!.
  - apply (getitem_index_range slicer_after_A 1 Hpaired). lia.
  - apply (getitem_index_range slicer_after_A (-1) Hpaired). lia.
  - apply (getitem_index_range slicer_after_A 2 Hpaired). lia.
  - apply (getitem_index_range slicer_after_A (-3) Hpaired). lia.
Defined.

Lemma in_slice_out_slice_adjacent_witness :
  in_slice (ramp 0 5) 2 1 ++ out_slice (ramp 0 5) 2 1 = window (ramp 0 5) 0 4
  ∧ last (in_slice (ramp 0 5) 2 1) = Some 1
  ∧ head (out_slice (ramp 0 5) 2 1) = Some 2.
Proof.
  destruct (in_slice_out_slice_adjacent (ramp 0 5) 2 2 1) as (Hcat & Hlast & Hhead);
    [lia|lia|lia|simpl; lia|].
  split; [exact Hcat|]. split; [by rewrite Hlast by lia|by rewrite Hhead by lia].
Defined.

End SlicerMoreExamples.

Section FilesMoreExamples.
Import file_utils.

Lemma numbered_name_counted_iff_witness :
  glob_plain ".pt" = true
  ∧ (fnmatch (pretty 3 +:+ ".pt") ("[0-9]*" +:+ ".pt") = true ↔ 0 ≤ 3)
  ∧ (fnmatch (pretty (-3) +:+ ".pt") ("[0-9]*" +:+ ".pt") = true ↔ 0 ≤ -3).
Proof.
  split; [reflexivity|]. split.
  - apply (numbered_name_counted_iff ".pt" 3 3). reflexivity.
  - apply (numbered_name_counted_iff ".pt" (-3) 3). reflexivity.
Defined.



End FilesMoreExamples.

Section ManagerMoreExamples.


Lemma get_trajectory_split_shrunk_witness :
  get_trajectory_count (ramp_dir 2) < n_on_disk (split_manager (dynamic_config 1) 4)
  ∧ fst (get_trajectory_split identity_perm (ramp_dir 2)
           (split_manager (dynamic_config 1) 4)) = Raise RuntimeError
  ∧ n_on_disk (get_trajectory_split identity_perm (ramp_dir 2)
                 (split_manager (dynamic_config 1) 4)).2 = 2.
Proof.
  assert (get_trajectory_count (ramp_dir 2) = 2) as Hcount by (by vm_compute).
  assert (n_on_disk (split_manager (dynamic_config 1) 4) = 4) as Hold
    by (by vm_compute).
  assert (train_set (split_manager (dynamic_config 1) 4) ≠ None) as Hsome
    by (by vm_compute).
  assert (truthy (DataConfig.dynamic_updates_from
                    (config (split_manager (dynamic_config 1) 4))) = true)
    as Hdyn by (by vm_compute).
  split; [rewrite Hcount, Hold; lia|].
  rewrite (get_trajectory_split_shrunk identity_perm (ramp_dir 2)
             (split_manager (dynamic_config 1) 4) Hsome Hdyn)
    by (rewrite Hcount, Hold; lia).
  split; [reflexivity|]. exact Hcount.
Defined.

Lemma store_of_ramps_subseteq : ramp_dir 4 ⊆ ramp_dir 8.
Proof.
  apply map_subseteq_spec. intros name t Hname.
  destruct (store_of_names (ramps 4) name) as (i & Hi & ->); [by eexists|].
  unfold ramp_dir in *. rewrite store_of_lookup in Hname |- * by lia.
  change (ramps 8) with (ramps 4 ++ drop 4 (ramps 8)).
  by apply lookup_app_l_Some.
Qed.

Lemma ramp_dir_good (cfg : DataConfig.t) (n : Z) :
  0 ≤ n →
  DataConfig.t_skip cfg + DataConfig.t_prediction cfg ≤ 3 →
  holds_range (ramp_dir n) 0 (get_trajectory_count (ramp_dir n))
  ∧ ∀ i t, ramp_dir n !! file_utils.trajectory_basename i = Some t →
           sliceable cfg t.
Proof.
  intros Hn Hcfg. unfold ramp_dir. rewrite get_trajectory_count_store_of. split.
  - by apply holds_range_store_of.
  - intros i t Hlook.
    destruct (store_of_names (ramps n) (file_utils.trajectory_basename i))
      as (j & Hj & Heq); [by eexists|].
    apply trajectory_basename_inj in Heq. subst j.
    eapply store_of_sliceable; [by apply ramps_sliceable| |exact Hlook]. lia.
Qed.


Lemma get_trajectory_split_never_recovers_witness :
  (get_trajectory_split identity_perm short_dir
     (new_manager (dynamic_config 1) 4)).1 = Raise AssertionError
  ∧ train_set half_built_manager ≠ None
  ∧ test_set half_built_manager = None
  ∧ ∃ e, (get_trajectory_split identity_perm (ramp_dir 8) half_built_manager).1
         = Raise e.
Proof.
  assert (train_set half_built_manager ≠ None) as Htrain by (by vm_compute).
  assert (test_set half_built_manager = None) as Htest by (by vm_compute).
  split; [by vm_compute|]. split; [exact Htrain|]. split; [exact Htest|].
  destruct (get_trajectory_split_never_recovers identity_perm (ramp_dir 8)
              half_built_manager Htrain Htest) as (e & He & _).
  exists e. exact He.
Defined.

End ManagerMoreExamples.

Section GenerateMoreExamples.

Lemma generate_never_ends_witness :
  get_trajectory_count ramp_dir_without_0 = 4
  ∧ is_Some (ramp_dir_without_0 !! file_utils.trajectory_basename 4)
  ∧ ∀ fuel : nat,
      generate fuel ramp_sample nobody generate_config ramp_dir_without_0 = None.
Proof.
  assert (get_trajectory_count ramp_dir_without_0 = 4) as Hcount by (by vm_compute).
  assert (is_Some (ramp_dir_without_0 !! file_utils.trajectory_basename 4)) as H4.
  { clear. exists (ramp 40 3). vm_compute. reflexivity. }
  split; [exact Hcount|]. split; [exact H4|].
  apply (generate_never_ends ramp_sample nobody generate_config 5 3
           ramp_dir_without_0).
  - intros k dir. reflexivity.
  - exists generation_config_5_3. split; [reflexivity|]. split; reflexivity.
  - lia.
  - rewrite Hcount. lia.
  - rewrite Hcount. intros i Hi. replace i with 4 by lia. exact H4.
Defined.

End GenerateMoreExamples.

Section DrakeMoreExamples.
Import drake_utils.

Lemma get_collision_geometry_set_spec_witness :
  get_collision_geometry_set triangle_inspector = Returned triangle_set
  ∧ ∃ set,
      get_collision_geometry_set triangle_inspector = Returned set
      ∧ NoDup (ids set)
      ∧ Forall2 (decodes (ids set)) (GetCollisionCandidates triangle_inspector)
          (collision_candidates set).
Proof.
  split; [reflexivity|].
  destruct (get_collision_geometry_set_spec triangle_inspector)
    as (set & Hrun & Hnd & _ & _ & Hdec).
  - intros g _. by eexists.
  - by exists set.
Defined.

Lemma get_collision_geometry_set_raises_witness :
  get_collision_geometry_set bad_inspector = Raised InspectorError
  ∧ ∃ g, candidate_id (GetCollisionCandidates bad_inspector) g
         ∧ GetFriction bad_inspector g = None.
Proof.
  assert (get_collision_geometry_set bad_inspector = Raised InspectorError)
    as Hrun by reflexivity.
  split; [exact Hrun|].
  apply (get_collision_geometry_set_raises bad_inspector InspectorError Hrun).
Defined.

Lemma get_collision_geometry_set_prefix_witness :
  get_collision_geometry_set (mkInspector first_candidates friction_of)
  = Returned first_set
  ∧ get_collision_geometry_set triangle_inspector = Returned triangle_set
  ∧ ids first_set `prefix_of` ids triangle_set
  ∧ frictions first_set `prefix_of` frictions triangle_set
  ∧ collision_candidates first_set `prefix_of` collision_candidates triangle_set.
Proof.
  assert (get_collision_geometry_set (mkInspector first_candidates friction_of)
          = Returned first_set) as H1 by reflexivity.
  assert (get_collision_geometry_set triangle_inspector = Returned triangle_set)
    as H2 by reflexivity.
  split; [exact H1|]. split; [exact H2|].
  exact (get_collision_geometry_set_prefix first_candidates more_candidates
           friction_of first_set triangle_set H1 H2).
Defined.

Lemma unique_body_identifier_inj_witness :
  unique_body_identifier cube_plant body_1 = unique_body_identifier cube_plant body_2
  ∧ name body_1 = name body_2.
Proof.
  assert (unique_body_identifier cube_plant body_1
          = unique_body_identifier cube_plant body_2) as Hsame by reflexivity.
  split; [exact Hsame|].
  apply (unique_body_identifier_inj cube_plant body_1 body_2); [reflexivity..|exact Hsame].
Defined.

Lemma cube_ground_plant_listing (i : Z) :
  i ∈ [0; 1; 2] →
  Forall (λ body, model_instance body = i)
    (get_bodies_in_model_instance cube_ground_plant i).
Proof.
  intros Hi. repeat (apply elem_of_cons in Hi as [->|Hi]);
    [by repeat constructor..|by apply elem_of_nil in Hi].
Qed.

Lemma cube_ground_plant_well_named : well_named cube_ground_plant [0; 1; 2].
Proof.
  split.
  - intros i j Hi Hj.
    repeat (apply elem_of_cons in Hi as [->|Hi]);
      try (by apply elem_of_nil in Hi);
      repeat (apply elem_of_cons in Hj as [->|Hj]);
      try (by apply elem_of_nil in Hj);
      first [done | intros Heq; vm_compute in Heq; discriminate].
  - intros i Hi. split; [|by apply cube_ground_plant_listing].
    repeat (apply elem_of_cons in Hi as [->|Hi]);
      [| | |by apply elem_of_nil in Hi];
      apply (bool_decide_unpack _); by vm_compute.
Qed.

Lemma get_all_bodies_unique_witness :
  NoDup [0; 1; 2]
  ∧ well_named cube_ground_plant [0; 1; 2]
  ∧ (get_all_bodies cube_ground_plant [0; 1; 2]).2
    = ["WorldModelInstance_world"; "cube_body"; "cube_lid"; "ground_body"]
  ∧ NoDup (get_all_bodies cube_ground_plant [0; 1; 2]).2.
Proof.
  assert (NoDup [0; 1; 2]) as Hnd by (apply (bool_decide_unpack _); by vm_compute).
  split; [exact Hnd|]. split; [exact cube_ground_plant_well_named|].
  split; [reflexivity|].
  apply (get_all_bodies_unique cube_ground_plant [0; 1; 2] Hnd);
    [|exact cube_ground_plant_well_named].
  intros i Hi. repeat (apply elem_of_cons in Hi as [->|Hi]);
    [reflexivity..|by apply elem_of_nil in Hi].
Defined.

Lemma get_all_inertial_bodies_no_world_witness :
  mkBody 1 "lid" ∈ (get_all_inertial_bodies 0 cube_ground_plant [0; 1; 2]).1
  ∧ (mkBody 0 "world" ∉ (get_all_inertial_bodies 0 cube_ground_plant [0; 1; 2]).1)
  ∧ mkBody 0 "world" ∈ (get_all_bodies cube_ground_plant [0; 1; 2]).1.
Proof.
  assert (mkBody 0 "world" ∈ (get_all_bodies cube_ground_plant [0; 1; 2]).1)
    as Hworld by (vm_compute; left).
  split; [|split; [|exact Hworld]].
  - apply (get_all_inertial_bodies_no_world 0 cube_ground_plant [0; 1; 2]
             (mkBody 1 "lid") cube_ground_plant_listing).
    split; [done|]. vm_compute. right. right. left.
  - intros Hin.
    apply (get_all_inertial_bodies_no_world 0 cube_ground_plant [0; 1; 2]
             (mkBody 0 "world") cube_ground_plant_listing) in Hin as [Hne _].
    by apply Hne.
Defined.

End DrakeMoreExamples.
